(** * Tweetcord: bootstrap, status page and administrative commands of [bot.py]

    A shallow embedding of [src/bot.py].  The coroutines of the file are
    computations in a small monad that threads the process state, records
    the observable effects in order and propagates Python exceptions.  The
    collaborators imported from other modules ([src.checker], [src.db_function],
    [discord.py], [aiohttp]) are the variables of a section. *)

From Stdlib Require Import Ascii String DecimalString ZArith.
From Stdlib.Strings Require Import Byte.
From stdpp Require Import base option list strings gmap.

Local Open Scope Z_scope.

(** ** Python strings *)

Module PyStr.

(** [s[-n:]]: the last [n] characters, the whole string when it is shorter. *)
Definition slice_last (n : nat) (s : string) : string :=
  String.substring (String.length s - n) n s.

(** [s[:-n]]: everything but the last [n] characters, empty when it is
    shorter. *)
Definition slice_drop_last (n : nat) (s : string) : string :=
  String.substring 0 (String.length s - n) s.

(** [s.endswith(suffix)]. *)
Definition endswith (s suffix : string) : bool :=
  (String.length suffix <=? String.length s)%nat
  && String.eqb
       (String.substring (String.length s - String.length suffix)
                         (String.length suffix) s)
       suffix.

(** [needle in hay]. *)
Fixpoint contains (needle hay : string) : bool :=
  String.prefix needle hay
  || match hay with
     | EmptyString => false
     | String _ rest => contains needle rest
     end.

(** [str(n)] for an integer. *)
Definition of_Z (z : Z) : string := NilZero.string_of_int (Z.to_int z).
Definition of_nat (n : nat) : string := NilZero.string_of_uint (Nat.to_uint n).

(** [os.path.join(a, b)] of [posixpath] for two components. *)
Definition path_join (a b : string) : string :=
  if String.prefix "/" b then b
  else if String.eqb a "" || endswith a "/" then a +:+ b
  else a +:+ "/" +:+ b.

End PyStr.

(** ** Values of the configuration mapping *)

Inductive PyVal :=
| VNone
| VBool (b : bool)
| VInt (z : Z)
| VStr (s : string).

(** Truth value of an object in an [if]. *)
Definition truthy (v : PyVal) : bool :=
  match v with
  | VNone => false
  | VBool b => b
  | VInt z => negb (z =? 0)
  | VStr s => negb (String.eqb s "")
  end.

(** ** Exceptions, effects, process state *)

Inductive Exn :=
| TypeError
| ValueError
| KeyError (key : string)
| IndexError
| ExtensionAlreadyLoaded (name : string)
| ExtensionFailed (name : string) (original : string)
| OtherError (msg : string).

Inductive Level := INFO | WARNING.

Record Response := { text : string; content_type : string }.

Inductive Event :=
| Log (lvl : Level) (msg : string)
| Sleep (seconds : Z)
| InitDb
| CheckUpgrade
| CheckEnv
| LoadDotenv
| CheckConfigs
| Execv
| CheckDb
| AutoRepair (invalid_clients : list string)
| UpdatePresence
| SetTreeOnError
| LoadExtension (name : string)
| TreeSync
| Send (channel : string) (content : string)
| InteractionSend (user : string) (content : string) (ephemeral : bool)
| DeleteMessage (delay : Z)
| ReadAttachment (filename : string)
| WriteFile (path : string) (data : list byte)
| RunnerSetup
| SiteStart (host : string) (port : Z)
| RunnerCleanup
| SetupLogging
| BotStart (token : option string)
| BotClose.

#[global] Instance byte_eq_dec : EqDecision byte := Byte.byte_eq_dec.
#[global] Instance Level_eq_dec : EqDecision Level.
Proof. solve_decision. Defined.
#[global] Instance Event_eq_dec : EqDecision Event.
Proof. solve_decision. Defined.

Record World := {
  environ : gmap string string;          (* os.environ *)
  dotenv : gmap string string;           (* the .env file, as load_dotenv reads it *)
  files : gmap string (list byte);       (* regular files, by path *)
  cogs : list string;                    (* os.listdir('./cogs') *)
  extensions : list string;              (* bot.extensions, latest first *)
  listener : option Z                    (* port the TCP site listens on *)
}.

Definition set_environ (e : gmap string string) (w : World) : World :=
  {| environ := e; dotenv := dotenv w; files := files w; cogs := cogs w;
     extensions := extensions w; listener := listener w |}.
Definition set_files (f : gmap string (list byte)) (w : World) : World :=
  {| environ := environ w; dotenv := dotenv w; files := f; cogs := cogs w;
     extensions := extensions w; listener := listener w |}.
Definition set_extensions (l : list string) (w : World) : World :=
  {| environ := environ w; dotenv := dotenv w; files := files w; cogs := cogs w;
     extensions := l; listener := listener w |}.
Definition set_listener (p : option Z) (w : World) : World :=
  {| environ := environ w; dotenv := dotenv w; files := files w; cogs := cogs w;
     extensions := extensions w; listener := p |}.

(** How a coroutine ends: it returns, an exception leaves it, or the process
    image was replaced by [os.execv] and nothing of it runs any more. *)
Inductive Outcome (A : Type) :=
| Returned (a : A)
| Raised (e : Exn)
| Replaced.
Arguments Returned {A} a.
Arguments Raised {A} e.
Arguments Replaced {A}.

Definition M (A : Type) : Type := World -> Outcome A * World * list Event.

Definition ret {A} (a : A) : M A := fun w => (Returned a, w, []).

Definition bind {A B} (m : M A) (k : A -> M B) : M B :=
  fun w =>
    match m w with
    | (Returned a, w1, t1) =>
        match k a w1 with (o, w2, t2) => (o, w2, t1 ++ t2) end
    | (Raised e, w1, t1) => (Raised e, w1, t1)
    | (Replaced, w1, t1) => (Replaced, w1, t1)
    end.

#[global] Instance M_ret : MRet M := @ret.
#[global] Instance M_bind : MBind M := fun A B k m => bind m k.

Definition raise {A} (e : Exn) : M A := fun w => (Raised e, w, []).
Definition emit (e : Event) : M unit := fun w => (Returned tt, w, [e]).
Definition get : M World := fun w => (Returned w, w, []).
Definition modify (f : World -> World) : M unit := fun w => (Returned tt, f w, []).

(** [try: body finally: fin].  When the process image is replaced inside
    [body], the [finally] block does not run. *)
Definition try_finally {A} (body : M A) (fin : M unit) : M A :=
  fun w =>
    match body w with
    | (Replaced, w1, t1) => (Replaced, w1, t1)
    | (o, w1, t1) =>
        match fin w1 with
        | (Returned _, w2, t2) => (o, w2, t1 ++ t2)
        | (Raised e, w2, t2) => (Raised e, w2, t1 ++ t2)
        | (Replaced, w2, t2) => (Replaced, w2, t1 ++ t2)
        end
    end.

(** [for x in l: body(x)]. *)
Fixpoint for_each {A} (l : list A) (body : A -> M unit) : M unit :=
  match l with
  | [] => ret tt
  | x :: rest => body x ;; for_each rest body
  end.

Definition outcome {A} (r : Outcome A * World * list Event) : Outcome A := r.1.1.
Definition final {A} (r : Outcome A * World * list Event) : World := r.1.2.
Definition events {A} (r : Outcome A * World * list Event) : list Event := r.2.

(** ** The status page (lines 24-58) *)

Definition dq : string := String (ascii_of_nat 34) EmptyString.
Definition nl : string := String (ascii_of_nat 10) EmptyString.
(** U+2705 in UTF-8. *)
Definition check_mark : string :=
  String (ascii_of_nat 226) (String (ascii_of_nat 156)
    (String (ascii_of_nat 133) EmptyString)).

Fixpoint unlines (ls : list string) : string :=
  match ls with
  | [] => ""
  | l :: rest => l +:+ nl +:+ unlines rest
  end.

Definition html_content : string :=
  nl +:+ unlines [
    "    <!DOCTYPE html>";
    "    <html>";
    "        <head>";
    "            <title>Discord Bot Status</title>";
    "            <style>";
    "                body {";
    "                    font-family: Arial, sans-serif;";
    "                    margin: 40px;";
    "                    line-height: 1.6;";
    "                    background: #f5f5f5;";
    "                }";
    "                .container {";
    "                    background: white;";
    "                    padding: 20px;";
    "                    border-radius: 8px;";
    "                    box-shadow: 0 2px 4px rgba(0,0,0,0.1);";
    "                    max-width: 600px;";
    "                    margin: 0 auto;";
    "                }";
    "                h1 { color: #5865F2; }";
    "                .status { color: #43B581; }";
    "            </style>";
    "        </head>";
    "        <body>";
    "            <div class=" +:+ dq +:+ "container" +:+ dq +:+ ">";
    "                <h1>Discord Bot Status</h1>";
    "                <p class=" +:+ dq +:+ "status" +:+ dq +:+ ">" +:+ check_mark
      +:+ " Bot is running!</p>";
    "                <p>This is the status page for the Discord bot.</p>";
    "            </div>";
    "        </body>";
    "    </html>"
  ] +:+ "    ".

Record Request := { req_path : string }.

Definition handle_web (request : Request) : M Response :=
  mret {| text := html_content; content_type := "text/html" |}.

(** ** Commands and their context *)

Record Attachment := { filename : string; content : list byte }.

(** [ctx]: the channel the command was invoked in and the attachments of the
    invoking message. *)
Record Context := { channel : string; attachments : list Attachment }.

(** [itn]: the user the interaction response goes to. *)
Record Interaction := { itn_user : string }.

Record AppCommandErr := { app_err_str : string }.

Inductive CommandErrorClass :=
| CommandNotFound
| MissingRequiredArgument
| NotOwner
| CommandInvokeError
| CommandError.

Record CommandErr := { err_class : CommandErrorClass; err_str : string }.

(** [isinstance(error, commands.errors.CommandNotFound)]; the class has no
    subclass. *)
Definition is_CommandNotFound (error : CommandErr) : bool :=
  match err_class error with CommandNotFound => true | _ => false end.

Record Runner := { bound_port : Z }.

(** ** Log messages of [on_ready] and of the error handlers *)

Definition msg_env_retry : string :=
  "incomplete environment variables detected, will retry in 30 seconds".
Definition msg_configs_retry : string :=
  "incomplete configs file detected, will retry in 30 seconds".
Definition msg_db_mismatch : string :=
  "detected environment variable undefined client name in database".
Definition msg_db_repaired : string :=
  "automatically replace mismatched client names with the first client name in the environment variable, use the sync slash command in discord to ensure notifications are turned on".
Definition msg_db_hint : string :=
  "set auto_repair_mismatched_clients to true in configs to automatically fix this error or manually update the database or environment variables".
Definition msg_db_ok : string := "database check passed".
Definition msg_tree_error : string :=
  "an error occurred but was handled by the tree error handler, error message : ".
Definition msg_command_error : string :=
  "an error occurred but was handled by the command error handler, error message : ".

(** ** Sample processes

    Concrete states and collaborators on which the program is run. *)

Module Sample.

(** A first start: [DATA_PATH] is set, the token is only in the [.env]
    file, there is no store file yet, and [./cogs] holds three extensions. *)
Definition cold : World :=
  {| environ := {[ "DATA_PATH" := "data" ]};
     dotenv := {[ "BOT_TOKEN" := "token" ]};
     files := ∅;
     cogs := ["a.py"; "b.py"; "c.py"];
     extensions := [];
     listener := None |}.

(** A later start: the store file is there, and [./cogs] holds other entries
    besides the extensions. *)
Definition warm : World :=
  {| environ := {[ "DATA_PATH" := "data/"; "BOT_TOKEN" := "token";
                   "PORT" := "8080" ]};
     dotenv := ∅;
     files := {[ "data/tracked_accounts.db" := [x53; x51] ]};
     cogs := ["__pycache__"; "notification.py"; "README.md"; "sync.py"; "py"];
     extensions := [];
     listener := None |}.

Definition configs : gmap string PyVal :=
  {[ "prefix" := VStr "!"; "auto_repair_mismatched_clients" := VBool true ]}.
Definition configs_no_repair : gmap string PyVal :=
  {[ "prefix" := VStr "!"; "auto_repair_mismatched_clients" := VBool false ]}.

Definition check_env (env : gmap string string) : bool :=
  bool_decide (is_Some (env !! "BOT_TOKEN")).
Definition check_configs (cfg : gmap string PyVal) : bool :=
  bool_decide (is_Some (cfg !! "prefix")).
Definition check_configs_strict (cfg : gmap string PyVal) : bool :=
  bool_decide (is_Some (cfg !! "activity_name")).
Definition check_db_clean (env : gmap string string)
    (fs : gmap string (list byte)) : list string := [].
Definition check_db_mismatch (env : gmap string string)
    (fs : gmap string (list byte)) : list string := ["old_client"].
Definition init_db (env : gmap string string)
    (fs : gmap string (list byte)) : gmap string (list byte) :=
  <[ "data/tracked_accounts.db" := [] ]> fs.
Definition auto_repair (invalid : list string) (env : gmap string string)
    (fs : gmap string (list byte)) : gmap string (list byte) :=
  <[ "data/tracked_accounts.db" := [x01] ]> fs.

Definition setup_ok (name : string) : option Exn := None.
(** The extension [b] cannot be imported. *)
Definition setup_b_fails (name : string) : option Exn :=
  if String.eqb name "cogs.b" then Some (ExtensionFailed "cogs.b" "ImportError")
  else None.

Definition tree_commands (loaded : list string) : list string := loaded.
Definition bot_user : string := "Tweetcord#0001".

(** A client whose login is refused. *)
Definition bot_start_fails (token : option string) : M unit :=
  fun w => (Raised (OtherError "LoginFailure"), w, []).

Fixpoint digits (s : string) (acc : Z) : option Z :=
  match s with
  | EmptyString => Some acc
  | String c rest =>
      let n := Z.of_nat (nat_of_ascii c) in
      if (48 <=? n) && (n <=? 57) then digits rest (10 * acc + (n - 48))
      else None
  end.
Definition py_int (s : string) : option Z :=
  match s with
  | EmptyString => None
  | _ => digits s 0
  end.
Definition port_free (port : Z) : bool := true.

(** A client that runs until it is closed. *)
Definition bot_start_returns (token : option string) : M unit :=
  fun w => (Returned tt, w, [Log INFO "client closed"]).

Definition root : Request := {| req_path := "/" |}.

Definition owner_message : Context :=
  {| channel := "admin";
     attachments := [ {| filename := "notes.txt"; content := [x68; x69] |};
                      {| filename := "backup.db"; content := [x01; x02] |};
                      {| filename := "older.db"; content := [x03] |} ] |}.
Definition plain_message : Context :=
  {| channel := "admin";
     attachments := [ {| filename := "notes.txt"; content := [x68; x69] |};
                      {| filename := "db"; content := [x00] |} ] |}.

Definition unknown_command : CommandErr :=
  {| err_class := CommandNotFound;
     err_str := "Command " +:+ dq +:+ "relaod" +:+ dq +:+ " is not found" |}.
Definition not_owner : CommandErr :=
  {| err_class := NotOwner; err_str := "You do not own this bot." |}.

End Sample.

(** ** The program

    The collaborators of [bot.py] that live in other modules are the
    variables of the section.  The checks, the store functions, the presence
    update, the logger and the sends are taken to return; what can raise in
    the model is what the file itself can provoke: a missing [DATA_PATH], a
    missing configuration key, an empty list indexed at 0, an extension that
    does not load, a port that is not a number or not free, and whatever the
    client raises. *)

Section Bot.

Set Default Proof Using "Type".

(** [configs], loaded once when the module is imported. *)
Variable configs : gmap string PyVal.
(** [src.checker]: the checks read the environment, the configuration and
    the store. *)
Variable check_env : gmap string string -> bool.
Variable check_configs : gmap string PyVal -> bool.
Variable check_db :
  gmap string string -> gmap string (list byte) -> list string.
(** [src.db_function]: both write the store. *)
Variable init_db :
  gmap string string -> gmap string (list byte) -> gmap string (list byte).
Variable auto_repair_mismatched_clients :
  list string -> gmap string string -> gmap string (list byte) ->
  gmap string (list byte).
(** What importing an extension and running its [setup] raises, if
    anything. *)
Variable extension_setup : string -> option Exn.
(** The commands [bot.tree.sync()] returns for the loaded extensions. *)
Variable tree_commands : list string -> list string.
Variable bot_user : string.
(** [bot.start(token)]: the whole life of the client. *)
Variable bot_start : option string -> M unit.
(** The builtin [int] on a string; [None] is a [ValueError]. *)
Variable py_int : string -> option Z.
(** Whether [site.start()] can bind the port. *)
Variable port_free : Z -> bool.

Definition log (lvl : Level) (msg : string) : M unit := emit (Log lvl msg).
Definition sleep (seconds : Z) : M unit := emit (Sleep seconds).

(** [os.getenv(name)]. *)
Definition getenv (name : string) : M (option string) :=
  w ← get; mret (environ w !! name).

(** [os.path.join(a, b)] where [a] comes from [os.getenv]. *)
Definition os_path_join (a : option string) (b : string) : M string :=
  match a with
  | None => raise TypeError
  | Some a => mret (PyStr.path_join a b)
  end.

Definition isfile (path : string) : M bool :=
  w ← get; mret (bool_decide (is_Some (files w !! path))).

(** [load_dotenv()]: variables already set are kept. *)
Definition load_dotenv : M unit :=
  emit LoadDotenv;;
  modify (fun w => set_environ (environ w ∪ dotenv w) w).

(** [os.execv(sys.executable, ...)]. *)
Definition execv : M unit := fun w => (Replaced, w, [Execv]).

(** [configs[key]]. *)
Definition configs_getitem (key : string) : M PyVal :=
  match configs !! key with
  | Some v => mret v
  | None => raise (KeyError key)
  end.

(** [bot.load_extension(name)] of discord.py. *)
Definition load_extension (name : string) : M unit :=
  emit (LoadExtension name);;
  w ← get;
  if bool_decide (name ∈ extensions w) then raise (ExtensionAlreadyLoaded name)
  else match extension_setup name with
       | Some e => raise e
       | None => modify (fun w => set_extensions (name :: extensions w) w)
       end.

(** Lines 78-79. *)
Definition stage_store : M unit :=
  data_path ← getenv "DATA_PATH";
  path ← os_path_join data_path "tracked_accounts.db";
  present ← isfile path;
  if negb present
  then emit InitDb;;
       modify (fun w => set_files (init_db (environ w) (files w)) w)
  else mret tt.

(** Lines 83-86. *)
Definition stage_env : M unit :=
  w ← get;
  emit CheckEnv;;
  if negb (check_env (environ w))
  then log WARNING msg_env_retry;;
       sleep 30;;
       load_dotenv
  else mret tt.

(** Lines 88-91. *)
Definition stage_config : M unit :=
  emit CheckConfigs;;
  if negb (check_configs configs)
  then log WARNING msg_configs_retry;;
       sleep 30;;
       execv
  else mret tt.

(** Lines 93-102. *)
Definition stage_db : M unit :=
  w ← get;
  emit CheckDb;;
  let invalid_clients := check_db (environ w) (files w) in
  if negb (bool_decide (invalid_clients = []))
  then log WARNING msg_db_mismatch;;
       auto_repair ← configs_getitem "auto_repair_mismatched_clients";
       if truthy auto_repair
       then emit (AutoRepair invalid_clients);;
            modify (fun w => set_files
              (auto_repair_mismatched_clients invalid_clients
                 (environ w) (files w)) w);;
            log INFO msg_db_repaired
       else log WARNING msg_db_hint
  else log INFO msg_db_ok.

(** Lines 108-109, the body of the loop. *)
Definition load_cog (filename : string) : M unit :=
  if PyStr.endswith filename ".py"
  then load_extension ("cogs." +:+ PyStr.slice_drop_last 3 filename)
  else mret tt.

(** Lines 107-109. *)
Definition load_cogs : M unit :=
  w ← get;
  for_each (cogs w) load_cog.

(** Lines 110-112. *)
Definition announce : M unit :=
  log INFO (bot_user +:+ " is online");;
  emit TreeSync;;
  w ← get;
  let slash := tree_commands (extensions w) in
  log INFO ("synced " +:+ PyStr.of_nat (length slash) +:+ " slash commands").

(** Lines 78-106: what [on_ready] does before it loads the extensions. *)
Definition before_loading : M unit :=
  stage_store;;
  emit CheckUpgrade;;
  stage_env;;
  stage_config;;
  stage_db;;
  emit UpdatePresence;;
  emit SetTreeOnError.

(** Lines 77-112. *)
Definition on_ready : M unit :=
  stage_store;;
  emit CheckUpgrade;;
  stage_env;;
  stage_config;;
  stage_db;;
  emit UpdatePresence;;
  emit SetTreeOnError;;
  load_cogs;;
  announce.

(** Lines 152-157. *)
Definition upload_data (ctx : Context) : M unit :=
  match filter (fun attachment =>
                  PyStr.slice_last 3 (filename attachment) = ".db")
               (attachments ctx) with
  | [] => raise IndexError
  | first :: _ =>
      emit (ReadAttachment (filename first));;
      let raw := content first in
      data_path ← getenv "DATA_PATH";
      path ← os_path_join data_path "tracked_accounts.db";
      modify (fun w => set_files (<[path := []]> (files w)) w);;
      emit (WriteFile path raw);;
      modify (fun w => set_files (<[path := raw]> (files w)) w);;
      emit (Send (channel ctx) "successfully uploaded data");;
      emit (DeleteMessage 5)
  end.

(** Lines 161-163. *)
Definition on_tree_error (itn : Interaction) (error : AppCommandErr) : M unit :=
  emit (InteractionSend (itn_user itn) (app_err_str error) true);;
  log WARNING (msg_tree_error +:+ app_err_str error).

(** Lines 167-172. *)
Definition on_command_error (ctx : Context) (error : CommandErr) : M unit :=
  if is_CommandNotFound error then mret tt
  else
    emit (Send (channel ctx) (err_str error));;
    log WARNING (msg_command_error +:+ err_str error).

(** Lines 60-69. *)
Definition start_web_server : M Runner :=
  w ← get;
  port ← match environ w !! "PORT" with
         | Some s => match py_int s with
                     | Some p => mret p
                     | None => raise ValueError
                     end
         | None => mret 10000
         end;
  emit RunnerSetup;;
  (if port_free port
   then emit (SiteStart "0.0.0.0" port);; modify (set_listener (Some port))
   else raise (OtherError "OSError"));;
  log INFO ("Web server started and bound to port " +:+ PyStr.of_Z port);;
  mret {| bound_port := port |}.

(** [runner.cleanup()]. *)
Definition cleanup (runner : Runner) : M unit :=
  emit RunnerCleanup;;
  modify (set_listener None).

(** Lines 71-74. *)
Definition run_bot : M unit :=
  emit SetupLogging;;
  try_finally
    (token ← getenv "BOT_TOKEN";
     emit (BotStart token);;
     bot_start token)
    (emit BotClose).

(** Lines 175-182. *)
Definition main : M unit :=
  runner ← start_web_server;
  try_finally run_bot (cleanup runner).

(** [bot.unload_extension(name)] of discord.py.  The registry is part of the
    state; a name that is not loaded is an [ExtensionNotLoaded] error. *)
Definition unload_extension (name : string) : M unit :=
  w ← get;
  if bool_decide (name ∈ extensions w)
  then modify (fun w =>
         set_extensions (filter (fun n => n <> name) (extensions w)) w)
  else raise (OtherError "ExtensionNotLoaded").

(** Lines 117-119, the body of the command (the owner check of line 116 is
    made by the framework before the body runs). *)
Definition load (ctx : Context) (extension : string) : M unit :=
  load_extension ("cogs." +:+ extension);;
  emit (Send (channel ctx) ("Loaded " +:+ extension +:+ " done.")).

(** Lines 124-126. *)
Definition unload (ctx : Context) (extension : string) : M unit :=
  unload_extension ("cogs." +:+ extension);;
  emit (Send (channel ctx) ("Un - Loaded " +:+ extension +:+ " done.")).

(** ** Reading a run *)

(** The path of the store file under the data directory [d]. *)
Definition store_path (d : string) : string :=
  PyStr.path_join d "tracked_accounts.db".

(** Effects and state of lines 78-79 when [DATA_PATH] is [d]. *)
Definition store_events (d : string) (w : World) : list Event :=
  if bool_decide (is_Some (files w !! store_path d)) then [] else [InitDb].
Definition after_store (d : string) (w : World) : World :=
  if bool_decide (is_Some (files w !! store_path d)) then w
  else set_files (init_db (environ w) (files w)) w.

(** Effects and state of lines 83-86. *)
Definition env_events (w : World) : list Event :=
  if check_env (environ w) then [CheckEnv]
  else [CheckEnv; Log WARNING msg_env_retry; Sleep 30; LoadDotenv].
Definition after_env (w : World) : World :=
  if check_env (environ w) then w
  else set_environ (environ w ∪ dotenv w) w.

(** The names the loop of [on_ready] asks for, given the directory listing. *)
Definition cog_names (listing : list string) : list string :=
  map (fun f => "cogs." +:+ PyStr.slice_drop_last 3 f)
      (filter (fun f => PyStr.endswith f ".py" = true) listing).

(** Whether the page of a response contains [needle]. *)
Definition page_contains (needle : string)
    (r : Outcome Response * World * list Event) : bool :=
  match outcome r with
  | Returned resp => PyStr.contains needle (text resp)
  | _ => false
  end.

(** How many times the effect [e] occurs in a run. *)
Definition calls (e : Event) (t : list Event) : nat :=
  length (filter (fun x => x = e) t).

(** The extension names passed to [bot.load_extension], in order. *)
Fixpoint load_requests (t : list Event) : list string :=
  match t with
  | [] => []
  | LoadExtension name :: rest => name :: load_requests rest
  | _ :: rest => load_requests rest
  end.

(** [m] emits only effects that satisfy [P], from every state. *)
Definition emits_only {A} (P : Event -> Prop) (m : M A) : Prop :=
  forall w, Forall P (events (m w)).

(** [m] leaves the projection [f] of the state as it is. *)
Definition keeps {A B} (f : World -> B) (m : M A) : Prop :=
  forall w, f (final (m w)) = f w.

(** [m] takes every state to a state related to it by [R]. *)
Definition moves {A} (R : World -> World -> Prop) (m : M A) : Prop :=
  forall w, R w (final (m w)).

(** The state of [on_ready] when it reaches the database check, with
    [DATA_PATH] set to [d]. *)
Definition at_db_check (d : string) (w : World) : World :=
  after_env (after_store d w).

(** ** Facts on Python strings *)

(** Drops from the context what the goal does not mention. *)
Ltac only_goal := repeat match goal with x : _ |- _ => clear x end.

Lemma substring_whole (s : string) (n : nat) :
  (String.length s <= n)%nat -> String.substring 0 n s = s.
Proof.
  revert n; induction s as [|c s IH]; intros [|n] Hn; simpl in *; try done.
  - lia.
  - f_equal. apply IH. lia.
Qed.

Lemma string_length_app (p q : string) :
  String.length (p +:+ q) = (String.length p + String.length q)%nat.
Proof. induction p as [|c p IH]; simpl; [done | by rewrite IH]. Qed.

Lemma substring_app_suffix (p q : string) :
  String.substring (String.length p) (String.length q) (p +:+ q) = q.
Proof.
  induction p as [|c p IH]; simpl; [|done].
  by apply substring_whole.
Qed.

Lemma substring_app_prefix (p q : string) :
  String.substring 0 (String.length p) (p +:+ q) = p.
Proof.
  induction p as [|c p IH]; simpl.
  - by destruct q.
  - by rewrite IH.
Qed.

Lemma substring_split (s : string) (n : nat) :
  (n <= String.length s)%nat ->
  String.substring 0 n s +:+ String.substring n (String.length s - n) s = s.
Proof.
  revert n; induction s as [|c s IH]; intros [|n] Hn; simpl in *; try done.
  - by rewrite substring_whole.
  - change (String c (String.substring 0 n s
                      +:+ String.substring n (String.length s - n) s)
            = String c s).
    f_equal. apply IH. lia.
Qed.

Lemma length_substring_le (s : string) (a n : nat) :
  (String.length (String.substring a n s) <= String.length s)%nat.
Proof.
  revert a n; induction s as [|c s IH]; intros [|a] [|n]; simpl; try lia.
  - specialize (IH 0%nat n). lia.
  - specialize (IH a 0%nat). lia.
  - specialize (IH a (S n)). lia.
Qed.

(** [s.endswith(suffix)] holds exactly when [s] is some prefix followed by
    [suffix]. *)
Lemma endswith_spec (s suffix : string) :
  PyStr.endswith s suffix = true <-> exists p, s = p +:+ suffix.
Proof.
  unfold PyStr.endswith. rewrite andb_true_iff, Nat.leb_le, String.eqb_eq.
  split.
  - intros [Hlen Hsub].
    exists (String.substring 0 (String.length s - String.length suffix) s).
    pose proof (substring_split s (String.length s - String.length suffix)) as H.
    replace (String.length s - (String.length s - String.length suffix))%nat
      with (String.length suffix) in H by lia.
    rewrite Hsub in H. symmetry. apply H. lia.
  - intros [p ->]. rewrite string_length_app. split; [lia|].
    replace (String.length p + String.length suffix - String.length suffix)%nat
      with (String.length p) by lia.
    apply substring_app_suffix.
Qed.

(** The test [s[-n:] == suffix] of a suffix of [n] characters is
    [s.endswith(suffix)]. *)
Lemma slice_last_endswith (s suffix : string) :
  PyStr.slice_last (String.length suffix) s = suffix
  <-> PyStr.endswith s suffix = true.
Proof.
  only_goal.
  unfold PyStr.slice_last, PyStr.endswith.
  rewrite andb_true_iff, Nat.leb_le, String.eqb_eq.
  split; [|tauto].
  intros H. split; [|done].
  destruct (decide (String.length suffix <= String.length s)%nat) as [|Hlt];
    [done|].
  exfalso.
  pose proof (length_substring_le s
    (String.length s - String.length suffix) (String.length suffix)) as Hle.
  rewrite H in Hle. lia.
Qed.

(** A name that ends with [suffix] is [s[:-n]] followed by [suffix]. *)
Lemma slice_drop_last_endswith (s suffix : string) :
  PyStr.endswith s suffix = true ->
  s = PyStr.slice_drop_last (String.length suffix) s +:+ suffix.
Proof.
  intros [p ->]%endswith_spec. unfold PyStr.slice_drop_last.
  rewrite string_length_app.
  replace (String.length p + String.length suffix - String.length suffix)%nat
    with (String.length p) by lia.
  by rewrite substring_app_prefix.
Qed.

(** ** Facts on the monad *)

Lemma bind_returned {A B} (m : M A) (k : A -> M B) w a w1 t1 :
  m w = (Returned a, w1, t1) ->
  (m ≫= k) w = (outcome (k a w1), final (k a w1), t1 ++ events (k a w1)).
Proof.
  intros H. unfold mbind, M_bind, bind. rewrite H.
  by destruct (k a w1) as [[o w2] t2].
Qed.

Lemma bind_raised {A B} (m : M A) (k : A -> M B) w e w1 t1 :
  m w = (Raised e, w1, t1) -> (m ≫= k) w = (Raised e, w1, t1).
Proof. intros H. unfold mbind, M_bind, bind. by rewrite H. Qed.

Lemma bind_replaced {A B} (m : M A) (k : A -> M B) w w1 t1 :
  m w = (Replaced, w1, t1) -> (m ≫= k) w = (Replaced, w1, t1).
Proof. intros H. unfold mbind, M_bind, bind. by rewrite H. Qed.

Lemma bind_returned_inv {A B} (m : M A) (k : A -> M B) w b w2 t :
  (m ≫= k) w = (Returned b, w2, t) ->
  exists a w1 t1 t2,
    m w = (Returned a, w1, t1) /\ k a w1 = (Returned b, w2, t2)
    /\ t = t1 ++ t2.
Proof.
  unfold mbind, M_bind, bind.
  destruct (m w) as [[[a| |] w1] t1]; try done.
  destruct (k a w1) as [[o w2'] t2] eqn:Hk. intros [= -> -> <-].
  by exists a, w1, t1, t2.
Qed.

Lemma bind_assoc {A B C} (m : M A) (k : A -> M B) (h : B -> M C) w :
  ((m ≫= k) ≫= h) w = (m ≫= (fun a => k a ≫= h)) w.
Proof.
  unfold mbind, M_bind, bind.
  destruct (m w) as [[[a| |] w1] t1]; try done.
  destruct (k a w1) as [[[b| |] w2] t2]; try done.
  destruct (h b w2) as [[o w3] t3]. by rewrite app_assoc.
Qed.

Lemma events_bind {A B} (m : M A) (k : A -> M B) w :
  events ((m ≫= k) w) =
    events (m w) ++ match outcome (m w) with
                    | Returned a => events (k a (final (m w)))
                    | _ => []
                    end.
Proof.
  unfold mbind, M_bind, bind, events, outcome, final.
  destruct (m w) as [[[a| |] w1] t1]; simpl; try by rewrite app_nil_r.
  by destruct (k a w1) as [[o w2] t2].
Qed.

Lemma emits_only_ret {A} P (a : A) : emits_only P (mret a).
Proof. intros w. constructor. Qed.

Lemma emits_only_raise {A} P e : emits_only P (@raise A e).
Proof. intros w. constructor. Qed.

Lemma emits_only_get P : emits_only P get.
Proof. intros w. constructor. Qed.

Lemma emits_only_modify P f : emits_only P (modify f).
Proof. intros w. constructor. Qed.

Lemma emits_only_emit (P : Event -> Prop) e : P e -> emits_only P (emit e).
Proof. intros H w. by repeat constructor. Qed.

Lemma emits_only_bind {A B} P (m : M A) (k : A -> M B) :
  emits_only P m -> (forall a, emits_only P (k a)) -> emits_only P (m ≫= k).
Proof.
  intros Hm Hk w. rewrite events_bind. apply Forall_app. split; [apply Hm|].
  destruct (outcome (m w)); [apply Hk | constructor | constructor].
Qed.

Lemma emits_only_for_each {A} P (l : list A) (body : A -> M unit) :
  (forall x, emits_only P (body x)) -> emits_only P (for_each l body).
Proof.
  intros Hbody. induction l as [|x l IH]; simpl.
  - apply emits_only_ret.
  - apply emits_only_bind; [apply Hbody | intros _; apply IH].
Qed.

Lemma keeps_bind {A B C} (f : World -> C) (m : M A) (k : A -> M B) :
  keeps f m -> (forall a, keeps f (k a)) -> keeps f (m ≫= k).
Proof.
  intros Hm Hk w. specialize (Hm w). unfold final in *.
  unfold mbind, M_bind, bind.
  destruct (m w) as [[[a| |] w1] t1]; simpl in *; try done.
  specialize (Hk a w1). unfold final in Hk.
  destruct (k a w1) as [[o w2] t2]; simpl in *. congruence.
Qed.

Lemma calls_app (e : Event) t1 t2 : calls e (t1 ++ t2) = (calls e t1 + calls e t2)%nat.
Proof. unfold calls. by rewrite filter_app, length_app. Qed.

Lemma calls_none (e : Event) t :
  Forall (fun x => x <> e) t -> calls e t = 0%nat.
Proof.
  unfold calls. induction 1 as [|x t Hx _ IH]; [done|].
  by rewrite filter_cons_False.
Qed.

Lemma not_emitted (e : Event) t : Forall (fun x => x <> e) t -> e ∉ t.
Proof. rewrite Forall_forall. intros H Hin. by apply (H e). Qed.

Lemma load_requests_app t1 t2 :
  load_requests (t1 ++ t2) = load_requests t1 ++ load_requests t2.
Proof.
  induction t1 as [|e t1 IH]; [done|].
  destruct e; simpl; by rewrite ?IH.
Qed.

Lemma load_requests_none t :
  Forall (fun x => forall name, x <> LoadExtension name) t ->
  load_requests t = [].
Proof.
  induction 1 as [|x t Hx _ IH]; [done|].
  destruct x; simpl; try done. by destruct (Hx name).
Qed.

(** Unfolds the primitives of the monad in the goal and evaluates. *)
Ltac run :=
  cbv [mbind mret M_bind M_ret bind ret raise emit get modify log sleep
       getenv os_path_join isfile execv outcome final events];
  simpl.

Lemma emits_only_execv (P : Event -> Prop) : P Execv -> emits_only P execv.
Proof. intros H w. by repeat constructor. Qed.

(** Proves that a piece of the program emits only effects in [P], when [P]
    is decided by the constructor of the effect. *)
Ltac emits :=
  repeat first
    [ apply emits_only_ret | apply emits_only_raise | apply emits_only_get
    | apply emits_only_modify
    | apply emits_only_emit; first [done | by intros ?]
    | apply emits_only_execv; first [done | by intros ?]
    | apply emits_only_for_each; intros ?
    | apply emits_only_bind; [|intros ?]
    | match goal with
      | |- emits_only _ (if ?b then _ else _) => destruct b
      | |- emits_only _ (match ?x with _ => _ end) => destruct x
      end ].

(** ** The stages of [on_ready] *)

Lemma stage_store_run w d :
  environ w !! "DATA_PATH" = Some d ->
  stage_store w = (Returned tt, after_store d w, store_events d w).
Proof.
  intros Hd. unfold stage_store, after_store, store_events. run.
  rewrite Hd. simpl. fold (store_path d).
  by destruct (bool_decide (is_Some (files w !! store_path d))).
Qed.

Lemma stage_env_run w :
  stage_env w = (Returned tt, after_env w, env_events w).
Proof.
  unfold stage_env, after_env, env_events, load_dotenv. run.
  by destruct (check_env (environ w)).
Qed.

Lemma stage_config_run w :
  stage_config w =
    if check_configs configs then (Returned tt, w, [CheckConfigs])
    else (Replaced, w,
          [CheckConfigs; Log WARNING msg_configs_retry; Sleep 30; Execv]).
Proof. unfold stage_config. run. by destruct (check_configs configs). Qed.

Lemma environ_after_store d w : environ (after_store d w) = environ w.
Proof. unfold after_store. by case_bool_decide. Qed.

Section Alphabet.
Variable P : Event -> Prop.

Lemma stage_env_emits :
  P CheckEnv -> (forall l s, P (Log l s)) -> (forall n, P (Sleep n)) ->
  P LoadDotenv -> emits_only P stage_env.
Proof. intros. unfold stage_env, load_dotenv, log, sleep. emits. Qed.

Lemma stage_config_emits :
  P CheckConfigs -> (forall l s, P (Log l s)) -> (forall n, P (Sleep n)) ->
  P Execv -> emits_only P stage_config.
Proof. intros. unfold stage_config, log, sleep. emits. Qed.

Lemma stage_db_emits :
  P CheckDb -> (forall l s, P (Log l s)) -> (forall r, P (AutoRepair r)) ->
  emits_only P stage_db.
Proof. intros. unfold stage_db, configs_getitem, log. emits. Qed.

Lemma load_cogs_emits :
  (forall n, P (LoadExtension n)) -> emits_only P load_cogs.
Proof. intros. unfold load_cogs, load_cog, load_extension. emits. Qed.

Lemma announce_emits :
  (forall l s, P (Log l s)) -> P TreeSync -> emits_only P announce.
Proof. intros. unfold announce, log. emits. Qed.

End Alphabet.

(** Proves that a sequence of stages emits only effects in [P]. *)
Ltac emits_stages :=
  repeat first
    [ apply stage_env_emits | apply stage_config_emits | apply stage_db_emits
    | apply load_cogs_emits | apply announce_emits
    | apply emits_only_emit
    | apply emits_only_bind; [|intros ?] ];
  try done; try (by intros).

(** ** The store stage *)

(** C7: with the data directory [d] given by [DATA_PATH], the initializer of
    the store runs exactly when there is no store file in [d], and the run goes
    on to the upgrade check and the environment check in both cases. *)
Theorem store_initialized_iff_absent (w : World) (d : string) :
  environ w !! "DATA_PATH" = Some d ->
  (InitDb ∈ events (on_ready w) <-> files w !! store_path d = None)
  /\ exists rest,
       events (on_ready w) =
         (if bool_decide (is_Some (files w !! store_path d))
          then [] else [InitDb])
         ++ CheckUpgrade :: CheckEnv :: rest.
Proof.
  intros Hd.
  assert (exists rest,
    events (on_ready w) = store_events d w ++ CheckUpgrade :: CheckEnv :: rest
    /\ Forall (fun e => e <> InitDb) rest) as (rest & Hev & Hrest).
  { unfold on_ready. rewrite events_bind, (stage_store_run w d Hd).
    cbn [events outcome final fst snd].
    rewrite events_bind. cbn [emit events outcome final fst snd].
    rewrite events_bind, stage_env_run. cbn [events outcome final fst snd].
    match goal with |- context [env_events ?w1 ++ ?t] =>
      exists (tail (env_events w1) ++ t) end.
    split.
    - unfold env_events. by destruct (check_env _).
    - apply Forall_app. split.
      + unfold env_events. destruct (check_env _); by repeat constructor.
      + match goal with |- Forall ?P (events (?m ?w1)) =>
          assert (emits_only P m) as Hm; [|apply Hm] end.
        emits_stages. }
  split; [|by exists rest].
  rewrite Hev. unfold store_events. case_bool_decide as Hfile.
  - split.
    + intros [Hin|Hin]%elem_of_cons; [done|].
      apply elem_of_cons in Hin as [Hin|Hin]; [done|].
      by apply not_emitted in Hrest.
    + intros Hnone. rewrite Hnone in Hfile. by destruct Hfile.
  - split; [|intros _; simpl; left].
    intros _. by apply eq_None_not_Some.
Qed.

(** ** The environment stage *)

(** C2, as the code has it: when the environment check fails, the run logs a
    warning, sleeps 30 seconds, reads the [.env] file again and goes on to the
    configuration check; the environment check is run once, not twice. *)
Theorem env_check_failure_reloads_once (w : World) (d : string) :
  environ w !! "DATA_PATH" = Some d ->
  check_env (environ w) = false ->
  (exists rest,
     events (on_ready w) =
       store_events d w
       ++ [CheckUpgrade; CheckEnv; Log WARNING msg_env_retry; Sleep 30;
           LoadDotenv; CheckConfigs]
       ++ rest)
  /\ calls CheckEnv (events (on_ready w)) = 1%nat.
Proof.
  intros Hd Henv.
  assert (exists rest,
    events (on_ready w) =
      store_events d w
      ++ [CheckUpgrade; CheckEnv; Log WARNING msg_env_retry; Sleep 30;
          LoadDotenv; CheckConfigs]
      ++ rest
    /\ Forall (fun e => e <> CheckEnv) rest) as (rest & Hev & Hrest).
  { unfold on_ready. rewrite events_bind, (stage_store_run w d Hd).
    cbn [events outcome final fst snd].
    rewrite events_bind. cbn [emit events outcome final fst snd].
    rewrite events_bind, stage_env_run. cbn [events outcome final fst snd].
    unfold env_events at 1. rewrite environ_after_store, Henv.
    match goal with |- context [events (?m ?w1)] =>
      assert (Forall (fun e => e <> CheckEnv) (events (m w1))) as Htail;
      [ assert (emits_only (fun e => e <> CheckEnv) m) as Hm;
        [emits_stages | apply Hm]
      | revert Htail; rewrite events_bind, stage_config_run;
        generalize (after_env (after_store d w)); intros w2 ]
    end.
    destruct (check_configs configs); cbn [events outcome final fst snd];
      intros Htail; apply Forall_cons in Htail as [_ Htail]; eauto. }
  split; [by exists rest|].
  rewrite Hev, !calls_app, (calls_none _ rest Hrest).
  unfold store_events. by case_bool_decide.
Qed.

(** ** The configuration stage *)

(** C4: when the configuration check fails, the run logs a warning, sleeps
    the same 30 seconds and replaces the process image; the database check
    is not reached in that run. *)
Theorem config_check_failure_restarts (w : World) (d : string) :
  environ w !! "DATA_PATH" = Some d ->
  check_configs configs = false ->
  on_ready w =
    (Replaced, after_env (after_store d w),
     store_events d w ++ [CheckUpgrade] ++ env_events (after_store d w)
     ++ [CheckConfigs; Log WARNING msg_configs_retry; Sleep 30; Execv])
  /\ CheckDb ∉ events (on_ready w).
Proof.
  intros Hd Hcfg.
  assert (on_ready w =
    (Replaced, after_env (after_store d w),
     store_events d w ++ [CheckUpgrade] ++ env_events (after_store d w)
     ++ [CheckConfigs; Log WARNING msg_configs_retry; Sleep 30; Execv])) as Hrun.
  { unfold on_ready. cbv [mbind M_bind bind].
    rewrite (stage_store_run w d Hd). cbn [emit].
    rewrite stage_env_run, stage_config_run, Hcfg. done. }
  split; [done|]. rewrite Hrun. cbn [events snd].
  unfold store_events, env_events.
  apply not_emitted.
  case_bool_decide; destruct (check_env _); simpl; repeat constructor; done.
Qed.

(** ** Loading the extensions *)

Lemma keeps_ret {A B} (f : World -> B) (a : A) : keeps f (mret a).
Proof. by intros w. Qed.

Lemma keeps_raise {A B} (f : World -> B) e : keeps f (@raise A e).
Proof. by intros w. Qed.

Lemma keeps_get {B} (f : World -> B) : keeps f get.
Proof. by intros w. Qed.

Lemma keeps_emit {B} (f : World -> B) e : keeps f (emit e).
Proof. by intros w. Qed.

Lemma keeps_execv {B} (f : World -> B) : keeps f execv.
Proof. by intros w. Qed.

Lemma keeps_modify {B} (f : World -> B) g :
  (forall w, f (g w) = f w) -> keeps f (modify g).
Proof. intros H w. apply H. Qed.

(** Proves that a piece of the program leaves a field of the state alone. *)
Ltac keeps_field :=
  repeat first
    [ apply keeps_ret | apply keeps_raise | apply keeps_get | apply keeps_emit
    | apply keeps_execv
    | apply keeps_modify; by intros ?
    | apply keeps_bind; [|intros ?]
    | match goal with
      | |- keeps _ (if ?b then _ else _) => destruct b
      | |- keeps _ (match ?x with _ => _ end) => destruct x
      end ].

Lemma before_loading_keeps_cogs : keeps cogs before_loading.
Proof.
  unfold before_loading, stage_store, stage_env, stage_config, stage_db,
    getenv, os_path_join, isfile, load_dotenv, configs_getitem, log, sleep.
  keeps_field.
Qed.

Lemma before_loading_keeps_extensions : keeps extensions before_loading.
Proof.
  unfold before_loading, stage_store, stage_env, stage_config, stage_db,
    getenv, os_path_join, isfile, load_dotenv, configs_getitem, log, sleep.
  keeps_field.
Qed.

Lemma before_loading_emits (P : Event -> Prop) :
  P InitDb -> P CheckUpgrade -> P CheckEnv -> P LoadDotenv ->
  P CheckConfigs -> P Execv -> P CheckDb -> P UpdatePresence ->
  P SetTreeOnError ->
  (forall l s, P (Log l s)) -> (forall n, P (Sleep n)) ->
  (forall r, P (AutoRepair r)) ->
  emits_only P before_loading.
Proof.
  intros. unfold before_loading.
  apply emits_only_bind; [|intros ?; emits_stages].
  unfold stage_store, getenv, os_path_join, isfile. emits.
Qed.

(** [on_ready] is lines 78-106 followed by the loop and the sync. *)
Lemma on_ready_split w :
  on_ready w = (before_loading;; load_cogs;; announce) w.
Proof.
  unfold on_ready, before_loading. cbv [mbind M_bind bind].
  destruct (stage_store w) as [[[[]| |] w1] t1]; [|done..].
  cbn [emit]. destruct (stage_env w1) as [[[[]| |] w2] t2]; [|done..].
  destruct (stage_config w2) as [[[[]| |] w3] t3]; [|done..].
  destruct (stage_db w3) as [[[[]| |] w4] t4]; [|done..].
  cbn [emit].
  destruct (load_cogs w4) as [[[[]| |] w5] t5];
    [destruct (announce w5) as [[o w6] t6]|..];
    f_equal; by rewrite <- ?(app_assoc _ _ _).
Qed.

Lemma cog_names_cons f l : cog_names (f :: l) = cog_names [f] ++ cog_names l.
Proof.
  unfold cog_names. rewrite <- fmap_app. f_equal.
  by rewrite <- (filter_app _ [f] l).
Qed.

Lemma cog_names_app l1 l2 : cog_names (l1 ++ l2) = cog_names l1 ++ cog_names l2.
Proof. unfold cog_names. by rewrite filter_app, fmap_app. Qed.

Lemma load_extension_returned name w w' t :
  load_extension name w = (Returned tt, w', t) ->
  t = [LoadExtension name] /\ w' = set_extensions (name :: extensions w) w.
Proof.
  unfold load_extension. run. case_bool_decide; [done|].
  destruct (extension_setup name); [done|]. by intros [= <- <-].
Qed.

Lemma load_extension_raised name w e w' t :
  load_extension name w = (Raised e, w', t) ->
  t = [LoadExtension name] /\ w' = w.
Proof.
  unfold load_extension. run. case_bool_decide; [by intros [= _ <- <-]|].
  destruct (extension_setup name); [|done]. by intros [= _ <- <-].
Qed.

Lemma load_cog_returned f w w' t :
  load_cog f w = (Returned tt, w', t) ->
  load_requests t = cog_names [f]
  /\ extensions w' = rev (cog_names [f]) ++ extensions w
  /\ cogs w' = cogs w.
Proof.
  unfold load_cog, cog_names. destruct (PyStr.endswith f ".py") eqn:Hpy.
  - intros [-> ->]%load_extension_returned.
    by rewrite filter_cons_True, filter_nil.
  - intros [= <- <-]. by rewrite filter_cons_False, filter_nil by congruence.
Qed.

Lemma load_cog_raised f w e w' t :
  load_cog f w = (Raised e, w', t) ->
  load_requests t = cog_names [f] /\ w' = w /\ PyStr.endswith f ".py" = true.
Proof.
  unfold load_cog, cog_names. destruct (PyStr.endswith f ".py") eqn:Hpy; [|done].
  intros [-> ->]%load_extension_raised.
  by rewrite filter_cons_True, filter_nil.
Qed.

Lemma for_each_load_cog_returned l w w' t :
  for_each l load_cog w = (Returned tt, w', t) ->
  load_requests t = cog_names l
  /\ extensions w' = rev (cog_names l) ++ extensions w
  /\ cogs w' = cogs w.
Proof.
  revert w t. induction l as [|f l IH]; intros w t.
  - by intros [= <- <-].
  - cbn [for_each].
    intros ([] & w1 & t1 & t2 & Hf & Hl & ->)%bind_returned_inv.
    apply load_cog_returned in Hf as (Hf1 & Hf2 & Hf3).
    apply IH in Hl as (Hl1 & Hl2 & Hl3).
    rewrite load_requests_app, cog_names_cons, Hf1, Hl1, Hl2, Hf2, Hl3, Hf3.
    by rewrite rev_app_distr, <- app_assoc.
Qed.

Lemma announce_returns w :
  exists t, announce w = (Returned tt, w, t) /\ load_requests t = []
            /\ TreeSync ∈ t.
Proof.
  only_goal.
  unfold announce. run. eexists. split; [done|]. split; [done|].
  set_solver.
Qed.

(** The names asked for are the entries that end in [.py], without that
    suffix and qualified by the package. *)
Lemma elem_of_cog_names name l :
  name ∈ cog_names l
  <-> exists stem, stem +:+ ".py" ∈ l /\ name = "cogs." +:+ stem.
Proof.
  unfold cog_names. rewrite list_elem_of_fmap. split.
  - intros (f & -> & [Hpy Hin]%list_elem_of_filter).
    exists (PyStr.slice_drop_last 3 f). split; [|done].
    pose proof (slice_drop_last_endswith f ".py" Hpy) as Hf.
    change (String.length ".py") with 3%nat in Hf. by rewrite <- Hf.
  - intros (stem & Hin & ->). exists (stem +:+ ".py"). split.
    + unfold PyStr.slice_drop_last. rewrite string_length_app.
      change (String.length ".py") with 3%nat.
      replace (String.length stem + 3 - 3)%nat with (String.length stem) by lia.
      by rewrite substring_app_prefix.
    + apply list_elem_of_filter. split; [|done].
      apply endswith_spec. by exists stem.
Qed.

Lemma load_cog_requests f w :
  load_requests (events (load_cog f w)) = cog_names [f].
Proof.
  unfold load_cog, load_extension, cog_names.
  destruct (PyStr.endswith f ".py") eqn:Hpy.
  - rewrite filter_cons_True, filter_nil by done. run.
    case_bool_decide; [done|]. by destruct (extension_setup _).
  - by rewrite filter_cons_False, filter_nil by congruence.
Qed.

Lemma for_each_load_cog_requests l w :
  load_requests (events (for_each l load_cog w)) `prefix_of` cog_names l.
Proof.
  revert w. induction l as [|f l IH]; intros w; [apply prefix_nil|].
  cbn [for_each]. rewrite events_bind, load_requests_app, cog_names_cons.
  rewrite load_cog_requests. apply prefix_app.
  destruct (outcome (load_cog f w)); [apply IH | apply prefix_nil..].
Qed.

(** C10: in every run of [on_ready] the extensions asked for are taken, in
    the order of the directory listing, from the entries of [./cogs] whose
    names end in [.py], each under its name without the suffix (qualified by
    the package [cogs]), and no other entry is asked for; a run that
    completes has asked for all of them and has them loaded. *)
Theorem cogs_loaded_from_listing (w : World) :
  load_requests (events (on_ready w)) `prefix_of` cog_names (cogs w)
  /\ (outcome (on_ready w) = Returned tt ->
      load_requests (events (on_ready w)) = cog_names (cogs w)
      /\ extensions (final (on_ready w))
         = rev (cog_names (cogs w)) ++ extensions w)
  /\ (forall name,
        name ∈ cog_names (cogs w)
        <-> exists stem, stem +:+ ".py" ∈ cogs w /\ name = "cogs." +:+ stem).
Proof.
  assert (emits_only (fun x => forall name, x <> LoadExtension name)
            before_loading) as Hquiet by (by apply before_loading_emits).
  pose proof (before_loading_keeps_cogs w) as Hcogs.
  pose proof (before_loading_keeps_extensions w) as Hexts.
  rewrite on_ready_split.
  split; [|split]; [| |intros name; apply elem_of_cog_names].
  - rewrite events_bind, load_requests_app.
    rewrite (load_requests_none _ (Hquiet w)). cbn [app].
    destruct (outcome (before_loading w)); [|apply prefix_nil..].
    rewrite events_bind, load_requests_app.
    destruct (announce_returns (final (load_cogs (final (before_loading w)))))
      as (t5 & Ha & Ht5 & _).
    rewrite Ha. cbn [events snd].
    assert (load_requests (events (load_cogs (final (before_loading w))))
              `prefix_of` cog_names (cogs w)) as Hpre.
    { rewrite <- Hcogs. unfold load_cogs. cbv [mbind M_bind bind get].
      pose proof (for_each_load_cog_requests
                    (cogs (final (before_loading w)))
                    (final (before_loading w))) as Hpre.
      by destruct (for_each _ load_cog _) as [[o3 w3] t3]. }
    destruct (outcome (load_cogs _)); rewrite ?Ht5; cbn [load_requests];
      by rewrite app_nil_r.
  - intros Hret.
    destruct ((before_loading;; load_cogs;; announce) w)
      as [[o w'] t] eqn:Hrun; cbn in Hret; subst o.
    apply bind_returned_inv in Hrun as ([] & w1 & t1 & t2 & Hb & Hrun & ->).
    apply bind_returned_inv in Hrun as ([] & w2 & t3 & t4 & Hl & Ha & ->).
    destruct (announce_returns w2) as (t5 & Ha' & Ht5 & _).
    rewrite Ha' in Ha; injection Ha as <- <-.
    specialize (Hquiet w).
    rewrite Hb in Hcogs, Hexts, Hquiet; cbn in Hcogs, Hexts, Hquiet.
    unfold load_cogs in Hl; cbv [mbind M_bind bind get] in Hl.
    destruct (for_each (cogs w1) load_cog w1) as [[o3 w3] t3'] eqn:Hfor.
    injection Hl as -> -> <-.
    apply for_each_load_cog_returned in Hfor as (Hreq & Hext & _).
    cbn. rewrite !load_requests_app, Hreq, Ht5, Hext, Hexts, Hcogs.
    by rewrite (load_requests_none _ Hquiet), app_nil_r.
Qed.

Lemma for_each_app {A} (l1 l2 : list A) (body : A -> M unit) w :
  for_each (l1 ++ l2) body w = (for_each l1 body;; for_each l2 body) w.
Proof.
  revert w. induction l1 as [|x l1 IH]; intros w.
  - change (for_each ([] ++ l2) body w) with (for_each l2 body w).
    change (for_each [] body) with (@ret unit tt).
    cbv [mbind M_bind bind ret].
    by destruct (for_each l2 body w) as [[o w'] t].
  - cbn [for_each app]. rewrite bind_assoc.
    cbv [mbind M_bind bind]. destruct (body x w) as [[[[]| |] w1] t1]; [|done..].
    rewrite IH. done.
Qed.

Lemma load_cog_emits (P : Event -> Prop) f :
  (forall n, P (LoadExtension n)) -> emits_only P (load_cog f).
Proof. intros. unfold load_cog, load_extension. emits. Qed.

(** C1, as the loop has it: the extensions are loaded one after the other
    with nothing around the loop that catches an error.  When the extensions
    before [f] load and loading [f] fails, the error leaves [on_ready]: the
    entries listed after [f] are not asked for, the extensions loaded so far
    stay loaded, and the run reaches neither the command sync nor its
    summary. *)
Theorem load_failure_aborts_startup
    (w w1 w2 w3 : World) (t1 t2 t3 : list Event)
    (before after : list string) (f : string) (e : Exn) :
  before_loading w = (Returned tt, w1, t1) ->
  cogs w1 = before ++ f :: after ->
  for_each before load_cog w1 = (Returned tt, w2, t2) ->
  load_cog f w2 = (Raised e, w3, t3) ->
  on_ready w = (Raised e, w2, t1 ++ t2 ++ t3)
  /\ load_requests (t1 ++ t2 ++ t3) = cog_names (before ++ [f])
  /\ extensions w2 = rev (cog_names before) ++ extensions w
  /\ TreeSync ∉ t1 ++ t2 ++ t3.
Proof.
  intros Hb Hcogs Hbefore Hf.
  pose proof (load_cog_raised _ _ _ _ _ Hf) as (Hreq3 & -> & _).
  pose proof (for_each_load_cog_returned _ _ _ _ Hbefore) as (Hreq2 & Hext & _).
  pose proof (before_loading_keeps_extensions w) as Hexts.
  rewrite Hb in Hexts; cbn in Hexts.
  split; [|split; [|split]].
  - rewrite on_ready_split.
    rewrite (bind_returned _ _ _ _ _ _ Hb).
    assert (load_cogs w1 = (Raised e, w2, t2 ++ t3)) as Hload.
    { unfold load_cogs. cbv [mbind M_bind bind get]. rewrite Hcogs.
      rewrite for_each_app. cbv [mbind M_bind bind]. rewrite Hbefore.
      cbn [for_each]. cbv [mbind M_bind bind]. by rewrite Hf. }
    by rewrite (bind_raised _ _ _ _ _ _ Hload).
  - rewrite !load_requests_app, Hreq2, Hreq3, cog_names_app.
    rewrite load_requests_none; [done|].
    assert (emits_only (fun x => forall name, x <> LoadExtension name)
              before_loading) as Hno by (by apply before_loading_emits).
    specialize (Hno w). by rewrite Hb in Hno.
  - by rewrite Hext, Hexts.
  - apply not_emitted. rewrite !Forall_app. split; [|split].
    + assert (emits_only (fun x => x <> TreeSync) before_loading) as Hno
        by (by apply before_loading_emits).
      specialize (Hno w). by rewrite Hb in Hno.
    + assert (emits_only (fun x => x <> TreeSync) (for_each before load_cog))
        as Hno by (apply emits_only_for_each; intros; by apply load_cog_emits).
      specialize (Hno w1). by rewrite Hbefore in Hno.
    + assert (emits_only (fun x => x <> TreeSync) (load_cog f)) as Hno
        by (by apply load_cog_emits).
      specialize (Hno w2). by rewrite Hf in Hno.
Qed.

(** ** Uploading the store *)

Lemma filter_first {A} (P : A -> Prop) `{!forall x, Decision (P x)}
    (l1 l2 : list A) (x : A) :
  Forall (fun y => ~ P y) l1 -> P x ->
  filter P (l1 ++ x :: l2) = x :: filter P l2.
Proof.
  intros Hl1 Hx. rewrite filter_app, filter_cons_True by done.
  induction Hl1 as [|y l1 Hy _ IH]; [done|].
  by rewrite filter_cons_False.
Qed.

Lemma filter_none {A} (P : A -> Prop) `{!forall x, Decision (P x)}
    (l : list A) :
  Forall (fun y => ~ P y) l -> filter P l = [].
Proof.
  induction 1 as [|y l Hy _ IH]; [done|]. by rewrite filter_cons_False.
Qed.

(** The test of line 153 is that the file name ends in [.db]. *)
Lemma db_attachment_spec (name : string) :
  PyStr.slice_last 3 name = ".db" <-> exists stem, name = stem +:+ ".db".
Proof.
  rewrite <- endswith_spec. apply (slice_last_endswith name ".db").
Qed.

(** C9: when no attachment of the message has a file name that ends in
    [.db], [upload_data] ends with an [IndexError] that it does not catch and
    writes nothing; otherwise the store file is replaced by the bytes of the
    first such attachment. *)
Theorem upload_data_first_db_attachment (ctx : Context) (w : World) :
  (Forall (fun a => ~ exists stem, filename a = stem +:+ ".db")
          (attachments ctx) ->
   upload_data ctx w = (Raised IndexError, w, []))
  /\ (forall before first after d,
       attachments ctx = before ++ first :: after ->
       Forall (fun a => ~ exists stem, filename a = stem +:+ ".db") before ->
       (exists stem, filename first = stem +:+ ".db") ->
       environ w !! "DATA_PATH" = Some d ->
       upload_data ctx w =
         (Returned tt,
          set_files (<[store_path d := content first]> (files w)) w,
          [ReadAttachment (filename first);
           WriteFile (store_path d) (content first);
           Send (channel ctx) "successfully uploaded data";
           DeleteMessage 5])).
Proof.
  split.
  - intros Hnone. unfold upload_data. rewrite filter_none; [done|].
    eapply Forall_impl; [exact Hnone|]. intros a Ha Hdb.
    apply Ha. by apply db_attachment_spec.
  - intros before first after d Hatt Hbefore Hfirst Hd.
    unfold upload_data. rewrite Hatt, filter_first.
    + run. rewrite Hd. simpl. fold (store_path d).
      unfold set_files; simpl. by rewrite insert_insert_eq.
    + eapply Forall_impl; [exact Hbefore|]. intros a Ha Hdb.
      apply Ha. by apply db_attachment_spec.
    + by apply db_attachment_spec.
Qed.

(** ** The supervisor *)

Lemma start_web_server_listens w runner w1 t1 :
  start_web_server w = (Returned runner, w1, t1) ->
  listener w1 = Some (bound_port runner)
  /\ SiteStart "0.0.0.0" (bound_port runner) ∈ t1.
Proof.
  only_goal.
  unfold start_web_server. run.
  destruct (environ w !! "PORT") as [s|]; simpl.
  - destruct (py_int s) as [port|]; simpl; [|done].
    destruct (port_free port); simpl; [|done].
    intros [= <- <- <-]. split; [done|set_solver].
  - destruct (port_free 10000); simpl; [|done].
    intros [= <- <- <-]. split; [done|set_solver].
Qed.

(** When the process image is replaced inside the bot task, nothing of
    [main] runs after it. *)
Lemma main_replaced_skips_cleanup
    (w w1 w2 : World) (runner : Runner) (t1 t2 : list Event) :
  start_web_server w = (Returned runner, w1, t1) ->
  run_bot w1 = (Replaced, w2, t2) ->
  main w = (Replaced, w2, t1 ++ t2).
Proof.
  intros Hweb Hbot. unfold main. rewrite (bind_returned _ _ _ _ _ _ Hweb).
  unfold try_finally. by rewrite Hbot.
Qed.

(** C6: once [start_web_server] has bound the listener, [main] runs the
    cleanup of the runner after the bot task, whether that task returns or
    raises; the cleanup is the last thing [main] does, the listener is
    released, and the result of the bot task is the result of [main]. *)
Theorem main_releases_listener
    (w w1 w2 : World) (runner : Runner) (t1 t2 : list Event)
    (o : Outcome unit) :
  start_web_server w = (Returned runner, w1, t1) ->
  run_bot w1 = (o, w2, t2) ->
  o <> Replaced ->
  listener w1 = Some (bound_port runner)
  /\ main w = (o, set_listener None w2, t1 ++ t2 ++ [RunnerCleanup])
  /\ listener (final (main w)) = None.
Proof.
  intros Hweb Hbot Ho.
  assert (main w = (o, set_listener None w2, t1 ++ t2 ++ [RunnerCleanup]))
    as Hmain.
  { unfold main. rewrite (bind_returned _ _ _ _ _ _ Hweb).
    unfold try_finally, cleanup. rewrite Hbot.
    by destruct o. }
  split; [by apply (start_web_server_listens w runner w1 t1)|].
  split; [done|]. by rewrite Hmain.
Qed.

(** ** The database-consistency step *)

(** C5: at the database-consistency step, an empty result of the check only
    logs that the check passed; a non-empty result is repaired, on exactly
    the records the check returned, when the auto-repair option is true, and
    otherwise only warnings are logged and the store stays as it is. *)
Theorem db_consistency_repair_policy (w : World) :
  let invalid := check_db (environ w) (files w) in
  (invalid = [] ->
   stage_db w = (Returned tt, w, [CheckDb; Log INFO msg_db_ok]))
  /\ (forall v, invalid <> [] ->
       configs !! "auto_repair_mismatched_clients" = Some v ->
       truthy v = true ->
       stage_db w =
         (Returned tt,
          set_files (auto_repair_mismatched_clients invalid (environ w)
                       (files w)) w,
          [CheckDb; Log WARNING msg_db_mismatch; AutoRepair invalid;
           Log INFO msg_db_repaired]))
  /\ (forall v, invalid <> [] ->
       configs !! "auto_repair_mismatched_clients" = Some v ->
       truthy v = false ->
       stage_db w =
         (Returned tt, w,
          [CheckDb; Log WARNING msg_db_mismatch; Log WARNING msg_db_hint])).
Proof.
  intros invalid. subst invalid. unfold stage_db, configs_getitem.
  split; [|split].
  - intros Hnil. run. by rewrite Hnil.
  - intros v Hne Hcfg Hv. run.
    rewrite bool_decide_eq_false_2 by done. simpl.
    by rewrite Hcfg, Hv.
  - intros v Hne Hcfg Hv. run.
    rewrite bool_decide_eq_false_2 by done. simpl.
    by rewrite Hcfg, Hv.
Qed.

(** ** Error handlers *)

(** C8, as the handlers have it: an error of a slash command, and an error
    of a prefix command other than [CommandNotFound], is sent back where the
    command was invoked and logged, with the same text, as a warning; for
    [CommandNotFound] the handler of prefix commands returns at once. *)
Theorem error_handlers_echo_and_log :
  (forall itn error w,
     on_tree_error itn error w =
       (Returned tt, w,
        [InteractionSend (itn_user itn) (app_err_str error) true;
         Log WARNING (msg_tree_error +:+ app_err_str error)]))
  /\ (forall ctx error w,
       is_CommandNotFound error = false ->
       on_command_error ctx error w =
         (Returned tt, w,
          [Send (channel ctx) (err_str error);
           Log WARNING (msg_command_error +:+ err_str error)]))
  /\ (forall ctx error w,
       is_CommandNotFound error = true ->
       on_command_error ctx error w = (Returned tt, w, [])).
Proof.
  split; [|split].
  - intros itn error w. reflexivity.
  - intros ctx error w H. unfold on_command_error. by rewrite H.
  - intros ctx error w H. unfold on_command_error. by rewrite H.
Qed.

(** ** The status page *)

(** C3, as the handler has it: the response is the same fixed page for every
    request and every state of the process, whether the bootstrap has run or
    not; it says that the bot is running. *)
Theorem handle_web_fixed_page (request : Request) (w : World) :
  handle_web request w =
    (Returned {| text := html_content; content_type := "text/html" |}, w, [])
  /\ PyStr.contains "Bot is running!" html_content = true
  /\ PyStr.contains "starting" html_content = false
  /\ PyStr.contains "operational" html_content = false.
Proof. repeat split; vm_compute; reflexivity. Qed.

(** ** How [on_ready] ends *)

Lemma outcome_bind {A B} (m : M A) (k : A -> M B) w :
  outcome ((m ≫= k) w) =
    match outcome (m w) with
    | Returned a => outcome (k a (final (m w)))
    | Raised e => Raised e
    | Replaced => Replaced
    end.
Proof.
  unfold mbind, M_bind, bind, outcome, final.
  destruct (m w) as [[[a| |] w1] t1]; simpl; try done.
  by destruct (k a w1) as [[o w2] t2].
Qed.

Lemma final_bind {A B} (m : M A) (k : A -> M B) w :
  final ((m ≫= k) w) =
    match outcome (m w) with
    | Returned a => final (k a (final (m w)))
    | _ => final (m w)
    end.
Proof.
  unfold mbind, M_bind, bind, outcome, final.
  destruct (m w) as [[[a| |] w1] t1]; simpl; try done.
  by destruct (k a w1) as [[o w2] t2].
Qed.

Lemma stage_store_unset w :
  environ w !! "DATA_PATH" = None -> stage_store w = (Raised TypeError, w, []).
Proof. intros Hd. unfold stage_store. run. by rewrite Hd. Qed.

Lemma stage_db_cases w :
  let invalid := check_db (environ w) (files w) in
  ((invalid = [] \/ is_Some (configs !! "auto_repair_mismatched_clients"))
   /\ outcome (stage_db w) = Returned tt)
  \/ (invalid <> [] /\ configs !! "auto_repair_mismatched_clients" = None
      /\ stage_db w =
           (Raised (KeyError "auto_repair_mismatched_clients"), w,
            [CheckDb; Log WARNING msg_db_mismatch])).
Proof.
  intros invalid. subst invalid. unfold stage_db, configs_getitem. run.
  case_bool_decide as Hinv; simpl; [left; by split; [left|]|].
  destruct (configs !! "auto_repair_mismatched_clients") as [v|] eqn:Hcfg;
    simpl; [|by right].
  left. split; [by right|]. by destruct (truthy v).
Qed.

Lemma before_loading_outcome w d :
  environ w !! "DATA_PATH" = Some d ->
  outcome (before_loading w) =
    if check_configs configs then outcome (stage_db (at_db_check d w))
    else Replaced.
Proof.
  intros Hd. unfold before_loading, at_db_check. cbv [mbind M_bind bind].
  rewrite (stage_store_run w d Hd). cbn [emit].
  rewrite stage_env_run, stage_config_run.
  destruct (check_configs configs); [|done].
  by destruct (stage_db _) as [[[[]| |] w4] t4].
Qed.

Lemma load_cog_not_replaced f w : outcome (load_cog f w) <> Replaced.
Proof.
  unfold load_cog, load_extension. destruct (PyStr.endswith f ".py"); [|done].
  run. case_bool_decide; [done|]. by destruct (extension_setup _).
Qed.

Lemma for_each_load_cog_not_replaced l w :
  outcome (for_each l load_cog w) <> Replaced.
Proof.
  revert w. induction l as [|f l IH]; intros w; [done|].
  cbn [for_each]. rewrite outcome_bind.
  pose proof (load_cog_not_replaced f w) as Hf.
  destruct (outcome (load_cog f w)); [apply IH|done|done].
Qed.

Lemma load_cogs_for_each w :
  load_cogs w = for_each (cogs w) load_cog w.
Proof.
  unfold load_cogs. cbv [mbind M_bind bind get].
  by destruct (for_each (cogs w) load_cog w) as [[o w1] t1].
Qed.

(** After the stages before it have returned, [on_ready] ends as the loop
    over the extensions ends. *)
Lemma on_ready_outcome w :
  outcome (on_ready w) =
    match outcome (before_loading w) with
    | Returned _ =>
        outcome (for_each (cogs w) load_cog (final (before_loading w)))
    | Raised e => Raised e
    | Replaced => Replaced
    end.
Proof.
  rewrite on_ready_split, outcome_bind.
  destruct (outcome (before_loading w)) as [[]| |] eqn:Hb; [|done..].
  rewrite outcome_bind, load_cogs_for_each.
  rewrite (before_loading_keeps_cogs w).
  destruct (outcome (for_each _ _ _)) as [[]| |]; [|done..].
  match goal with |- context [announce ?x] =>
    by destruct (announce_returns x) as (t & -> & _) end.
Qed.

(** ** When the loop over the extensions succeeds *)

Lemma cog_names_py f :
  PyStr.endswith f ".py" = true ->
  cog_names [f] = ["cogs." +:+ PyStr.slice_drop_last 3 f].
Proof.
  intros Hpy. unfold cog_names. by rewrite filter_cons_True, filter_nil.
Qed.

Lemma cog_names_other f : PyStr.endswith f ".py" = false -> cog_names [f] = [].
Proof.
  intros Hpy. unfold cog_names.
  by rewrite filter_cons_False, filter_nil by congruence.
Qed.

Lemma load_extension_returns_iff name w :
  outcome (load_extension name w) = Returned tt
  <-> (name ∉ extensions w) /\ extension_setup name = None.
Proof.
  unfold load_extension. run. case_bool_decide as Hin; simpl.
  - split; [done|]. by intros [? _].
  - destruct (extension_setup name); simpl; [|done].
    split; [done|]. by intros [_ ?].
Qed.

Lemma for_each_load_cog_returns_iff l w :
  outcome (for_each l load_cog w) = Returned tt
  <-> NoDup (cog_names l)
      /\ forall n, n ∈ cog_names l ->
                   (n ∉ extensions w) /\ extension_setup n = None.
Proof.
  revert w. induction l as [|f l IH]; intros w.
  - split; [|done]. intros _. split; [constructor|]. by intros n ?%elem_of_nil.
  - cbn [for_each]. rewrite outcome_bind, cog_names_cons.
    destruct (PyStr.endswith f ".py") eqn:Hpy.
    + rewrite (cog_names_py f Hpy). cbn [app].
      set (name := "cogs." +:+ PyStr.slice_drop_last 3 f).
      rewrite NoDup_cons.
      destruct (load_cog f w) as [[o w1] t1] eqn:Hf. cbn [outcome final fst snd].
      destruct o as [[]| |].
      * pose proof (load_cog_returned _ _ _ _ Hf) as (_ & Hext & _).
        rewrite (cog_names_py f Hpy) in Hext. cbn in Hext. fold name in Hext.
        assert (outcome (load_extension name w) = Returned tt) as Hload.
        { unfold load_cog in Hf. rewrite Hpy in Hf. fold name in Hf.
          by rewrite Hf. }
        apply load_extension_returns_iff in Hload as [Hfresh Hsetup].
        rewrite IH, Hext. split.
        -- intros [Hnd Hall]. split; [split; [|done]|].
           ++ intros Hin. apply Hall in Hin as [Hin _]. apply Hin. by left.
           ++ intros n [->|Hin]%elem_of_cons; [done|].
              apply Hall in Hin as [Hin ?]. split; [|done].
              intros ?. apply Hin. by right.
        -- intros [[Hname Hnd] Hall]. split; [done|].
           intros n Hin. destruct (Hall n) as [Hn ?]; [by right|].
           split; [|done]. intros [->|?]%elem_of_cons; done.
      * split; [done|]. intros [_ Hall].
        destruct (Hall name) as [Hfresh Hsetup]; [by left|].
        assert (outcome (load_extension name w) = Returned tt) as Hload
          by (by apply load_extension_returns_iff).
        unfold load_cog in Hf. rewrite Hpy in Hf. fold name in Hf.
        by rewrite Hf in Hload.
      * by pose proof (load_cog_not_replaced f w) as Hrep; rewrite Hf in Hrep.
    + rewrite (cog_names_other f Hpy). cbn [app].
      unfold load_cog. rewrite Hpy. cbn. apply IH.
Qed.

Lemma before_loading_returned_inv w :
  outcome (before_loading w) = Returned tt ->
  exists d, environ w !! "DATA_PATH" = Some d
            /\ check_configs configs = true
            /\ outcome (stage_db (at_db_check d w)) = Returned tt.
Proof.
  destruct (environ w !! "DATA_PATH") as [d|] eqn:Hd.
  - rewrite (before_loading_outcome w d Hd).
    destruct (check_configs configs); [|done]. by exists d.
  - unfold before_loading.
    by rewrite outcome_bind, (stage_store_unset w Hd).
Qed.

Lemma before_loading_replaced_inv w :
  outcome (before_loading w) = Replaced -> check_configs configs = false.
Proof.
  destruct (environ w !! "DATA_PATH") as [d|] eqn:Hd.
  - rewrite (before_loading_outcome w d Hd).
    destruct (check_configs configs); [|done].
    destruct (stage_db_cases (at_db_check d w)) as [[_ Hok]|(_ & _ & Hko)].
    + by rewrite Hok.
    + by rewrite Hko.
  - unfold before_loading.
    by rewrite outcome_bind, (stage_store_unset w Hd).
Qed.


Lemma keeps_for_each {A B} (f : World -> B) (l : list A) (body : A -> M unit) :
  (forall x, keeps f (body x)) -> keeps f (for_each l body).
Proof.
  intros Hbody. induction l as [|x l IH]; cbn [for_each].
  - apply keeps_ret.
  - apply keeps_bind; [apply Hbody | intros _; apply IH].
Qed.

Lemma on_ready_keeps_cogs : keeps cogs on_ready.
Proof.
  intros w. rewrite on_ready_split.
  revert w. apply keeps_bind; [apply before_loading_keeps_cogs|intros _].
  apply keeps_bind; [|intros _].
  - unfold load_cogs. apply keeps_bind; [apply keeps_get|intros w1].
    apply keeps_for_each. intros f. unfold load_cog, load_extension.
    keeps_field.
  - unfold announce, log. keeps_field.
Qed.

Lemma on_ready_returned_extensions w :
  outcome (on_ready w) = Returned tt ->
  extensions (final (on_ready w))
  = rev (cog_names (cogs w)) ++ extensions w.
Proof.
  pose proof (before_loading_keeps_cogs w) as Hcogs.
  pose proof (before_loading_keeps_extensions w) as Hexts.
  rewrite on_ready_split. intros Hret.
  destruct ((before_loading;; load_cogs;; announce) w)
    as [[o w'] t] eqn:Hrun; cbn in Hret; subst o.
  apply bind_returned_inv in Hrun as ([] & w1 & t1 & t2 & Hb & Hrun & ->).
  apply bind_returned_inv in Hrun as ([] & w2 & t3 & t4 & Hl & Ha & ->).
  destruct (announce_returns w2) as (t5 & Ha' & _).
  rewrite Ha' in Ha; injection Ha as <- <-.
  rewrite Hb in Hcogs, Hexts; cbn in Hcogs, Hexts.
  rewrite load_cogs_for_each in Hl.
  apply for_each_load_cog_returned in Hl as (_ & Hext & _).
  cbn. by rewrite Hext, Hexts, Hcogs.
Qed.

(** X2: [on_ready] does not complete a second time in the same process:
    after a run that completed with at least one extension, a further run
    ends with an exception, because the extensions are loaded already. *)
Theorem on_ready_not_twice (w : World) :
  outcome (on_ready w) = Returned tt ->
  cog_names (cogs w) <> [] ->
  exists e, outcome (on_ready (final (on_ready w))) = Raised e.
Proof.
  intros Hret Hsome.
  pose proof (on_ready_returned_extensions w Hret) as Hext.
  pose proof (on_ready_keeps_cogs w) as Hcogs.
  assert (check_configs configs = true) as Hcfg.
  { rewrite on_ready_outcome in Hret.
    destruct (outcome (before_loading w)) as [[]| |] eqn:Hb; [|done..].
    by apply before_loading_returned_inv in Hb as (d & _ & ? & _). }
  set (w1 := final (on_ready w)) in *.
  rewrite on_ready_outcome.
  destruct (outcome (before_loading w1)) as [[]| |] eqn:Hb.
  - destruct (outcome (for_each (cogs w1) load_cog (final (before_loading w1))))
      as [[]| |] eqn:Hloop.
    + exfalso. apply for_each_load_cog_returns_iff in Hloop as [_ Hall].
      rewrite (before_loading_keeps_extensions w1), Hcogs, Hext in Hall.
      destruct (cog_names (cogs w)) as [|n names]; [done|].
      destruct (Hall n) as [Hn _]; [by left|].
      apply Hn. rewrite elem_of_app. left.
      apply list_elem_of_In. rewrite <- in_rev. apply in_eq.
    + by eexists.
    + by apply for_each_load_cog_not_replaced in Hloop.
  - by eexists.
  - apply before_loading_replaced_inv in Hb. congruence.
Qed.

(** ** What a run of [on_ready] leaves in place *)

Section Moves.
Variable R : World -> World -> Prop.
Hypothesis R_refl : forall w, R w w.
Hypothesis R_trans : forall w1 w2 w3, R w1 w2 -> R w2 w3 -> R w1 w3.

Lemma moves_ret {A} (a : A) : moves R (mret a).
Proof using R_refl. intros w. apply R_refl. Qed.

Lemma moves_raise {A} e : moves R (@raise A e).
Proof using R_refl. intros w. apply R_refl. Qed.

Lemma moves_get : moves R get.
Proof using R_refl. intros w. apply R_refl. Qed.

Lemma moves_emit e : moves R (emit e).
Proof using R_refl. intros w. apply R_refl. Qed.

Lemma moves_execv : moves R execv.
Proof using R_refl. intros w. apply R_refl. Qed.

Lemma moves_modify g : (forall w, R w (g w)) -> moves R (modify g).
Proof using Type. intros H w. apply H. Qed.

Lemma moves_bind {A B} (m : M A) (k : A -> M B) :
  moves R m -> (forall a, moves R (k a)) -> moves R (m ≫= k).
Proof using R_trans.
  intros Hm Hk w. rewrite final_bind. specialize (Hm w).
  destruct (outcome (m w)); [|done..].
  eapply R_trans; [exact Hm | apply Hk].
Qed.

Lemma moves_for_each {A} (l : list A) (body : A -> M unit) :
  (forall x, moves R (body x)) -> moves R (for_each l body).
Proof using R_refl R_trans.
  intros Hbody. induction l as [|x l IH]; cbn [for_each].
  - apply moves_ret.
  - apply moves_bind; [apply Hbody | intros _; apply IH].
Qed.

End Moves.

(** Proves that a piece of the program moves the state along [R]; what
    is left are the updates of the state. *)
Ltac moves_along Hrefl Htrans :=
  repeat match goal with
    | |- moves _ (if ?b then _ else _) => destruct b
    | |- moves _ (match ?x with _ => _ end) => destruct x
    | |- moves _ (mret _) => apply (moves_ret _ Hrefl)
    | |- moves _ (raise _) => apply (moves_raise _ Hrefl)
    | |- moves _ get => apply (moves_get _ Hrefl)
    | |- moves _ (emit _) => apply (moves_emit _ Hrefl)
    | |- moves _ execv => apply (moves_execv _ Hrefl)
    | |- moves _ (modify _) => apply moves_modify; intros ?
    | |- moves _ (for_each _ _) =>
        apply (moves_for_each _ Hrefl Htrans); intros ?
    | |- moves _ (_ ≫= _) => apply (moves_bind _ Htrans); [|intros ?]
    end.

(** X3: a run of [on_ready] never changes or removes an environment
    variable that is set: reading the [.env] file again only adds the
    variables that were missing. *)
Theorem on_ready_keeps_environment (w : World) :
  environ w ⊆ environ (final (on_ready w)).
Proof.
  only_goal.
  assert (forall w0 : World, environ w0 ⊆ environ w0) as Hrefl by done.
  assert (forall w1 w2 w3 : World,
            environ w1 ⊆ environ w2 -> environ w2 ⊆ environ w3 ->
            environ w1 ⊆ environ w3) as Htrans
    by (intros ??? H1 H2; by etrans).
  revert w.
  change (moves (fun w w' => environ w ⊆ environ w') on_ready).
  unfold on_ready, stage_store, stage_env, stage_config, stage_db, load_cogs,
    load_cog, load_extension, announce, getenv, os_path_join, isfile,
    load_dotenv, configs_getitem, log, sleep.
  moves_along Hrefl Htrans;
    unfold set_files, set_environ, set_extensions; cbv beta; cbn [environ];
    first [done | apply map_union_subseteq_l].
Qed.

(** ** More on uploading the store *)



Lemma on_ready_finds_store w d :
  environ w !! "DATA_PATH" = Some d ->
  is_Some (files w !! store_path d) ->
  (InitDb ∉ events (on_ready w)) /\ files (at_db_check d w) = files w.
Proof.
  intros Hd Hfile. split.
  - apply not_emitted. unfold on_ready.
    rewrite events_bind, (stage_store_run w d Hd).
    cbn [events outcome final fst snd]. unfold store_events.
    rewrite bool_decide_eq_true_2 by done. cbn [app].
    match goal with |- Forall ?P (events (?m ?w1)) =>
      assert (emits_only P m) as Hm; [|apply Hm] end.
    emits_stages.
  - unfold at_db_check, after_env, after_store.
    rewrite bool_decide_eq_true_2 by done. by destruct (check_env _).
Qed.

(** X5: after an upload that returned, the next run of [on_ready] finds the
    store and does not initialize it again: the uploaded bytes are the
    store that the database check reads. *)
Theorem upload_data_then_on_ready (ctx : Context) (w : World) (d : string) :
  environ w !! "DATA_PATH" = Some d ->
  outcome (upload_data ctx w) = Returned tt ->
  (InitDb ∉ events (on_ready (final (upload_data ctx w))))
  /\ exists first,
       first ∈ attachments ctx
       /\ files (at_db_check d (final (upload_data ctx w))) !! store_path d
          = Some (content first).
Proof.
  intros Hd Hret.
  assert (exists first, first ∈ attachments ctx
            /\ final (upload_data ctx w)
               = set_files (<[store_path d := content first]> (files w)) w)
    as (first & Hin & Hfinal).
  { revert Hret. unfold upload_data.
    destruct (filter _ (attachments ctx)) as [|first rest] eqn:Hfilter;
      [done|].
    intros _. exists first. split.
    - assert (first ∈ filter (fun a => PyStr.slice_last 3 (filename a) = ".db")
                         (attachments ctx)) as Hin
        by (rewrite Hfilter; by left).
      by apply list_elem_of_filter in Hin as [_ ?].
    - run. rewrite Hd. simpl. fold (store_path d).
      unfold set_files; simpl. by rewrite insert_insert_eq. }
  rewrite Hfinal.
  destruct (on_ready_finds_store
              (set_files (<[store_path d := content first]> (files w)) w) d)
    as [Hinit Hfiles].
  - done.
  - cbn. rewrite lookup_insert_eq. by eexists.
  - split; [done|]. exists first. split; [done|].
    rewrite Hfiles. cbn. by rewrite lookup_insert_eq.
Qed.

(** ** The commands on extensions *)

Lemma world_eta w :
  {| environ := environ w; dotenv := dotenv w; files := files w;
     cogs := cogs w; extensions := extensions w; listener := listener w |} = w.
Proof. by destruct w. Qed.

Lemma filter_other_fresh (name : string) (l : list string) :
  name ∉ l -> filter (fun n => n <> name) l = l.
Proof.
  only_goal.
  induction l as [|x l IH]; [done|].
  intros [Hx Hl]%not_elem_of_cons.
  rewrite filter_cons_True by done. by rewrite IH.
Qed.

Lemma load_extension_cases name w :
  (name ∈ extensions w
   /\ load_extension name w =
        (Raised (ExtensionAlreadyLoaded name), w, [LoadExtension name]))
  \/ (exists e, (name ∉ extensions w) /\ extension_setup name = Some e
       /\ load_extension name w = (Raised e, w, [LoadExtension name]))
  \/ ((name ∉ extensions w) /\ extension_setup name = None
      /\ load_extension name w =
           (Returned tt, set_extensions (name :: extensions w) w,
            [LoadExtension name])).
Proof.
  unfold load_extension. run. case_bool_decide as Hin; simpl; [by left|].
  right. destruct (extension_setup name) as [e|]; simpl.
  - left. by exists e.
  - by right.
Qed.

(** X6: a [load] that succeeded and an [unload] of the same extension
    after it bring the process back to the state before the [load]. *)
Theorem load_then_unload
    (ctx ctx' : Context) (extension : string) (w : World) :
  outcome (load ctx extension w) = Returned tt ->
  unload ctx' extension (final (load ctx extension w))
  = (Returned tt, w,
     [Send (channel ctx') ("Un - Loaded " +:+ extension +:+ " done.")]).
Proof.
  unfold load, unload. set (name := "cogs." +:+ extension).
  destruct (load_extension_cases name w)
    as [[Hin Hrun]|[(e & Hin & Hs & Hrun)|(Hin & Hs & Hrun)]].
  - by rewrite (bind_raised _ _ _ _ _ _ Hrun).
  - by rewrite (bind_raised _ _ _ _ _ _ Hrun).
  - intros _. rewrite (bind_returned _ _ _ _ _ _ Hrun). cbn [final fst snd emit].
    unfold unload_extension. run.
    rewrite bool_decide_eq_true_2 by (by left). simpl.
    rewrite filter_cons_False by (by intros H; apply H).
    rewrite (filter_other_fresh name (extensions w) Hin).
    unfold set_extensions; simpl. by rewrite world_eta.
Qed.

(** ** The web server and the supervisor, step by step *)

Lemma start_web_server_cases w :
  (exists s, environ w !! "PORT" = Some s /\ py_int s = None
             /\ start_web_server w = (Raised ValueError, w, []))
  \/ (exists port,
        (environ w !! "PORT" = None /\ port = 10000
         \/ exists s, environ w !! "PORT" = Some s /\ py_int s = Some port)
        /\ if port_free port
           then start_web_server w =
                  (Returned {| bound_port := port |},
                   set_listener (Some port) w,
                   [RunnerSetup; SiteStart "0.0.0.0" port;
                    Log INFO ("Web server started and bound to port "
                              +:+ PyStr.of_Z port)])
           else start_web_server w =
                  (Raised (OtherError "OSError"), w, [RunnerSetup])).
Proof.
  unfold start_web_server. run.
  destruct (environ w !! "PORT") as [s|]; simpl.
  - destruct (py_int s) as [port|] eqn:Hs; simpl.
    + right. exists port. split; [right; by exists s|].
      by destruct (port_free port).
    + left. by exists s.
  - right. exists 10000. split; [by left|].
    by destruct (port_free 10000).
Qed.

Lemma run_bot_run w o w2 t2 :
  bot_start (environ w !! "BOT_TOKEN") w = (o, w2, t2) ->
  run_bot w =
    match o with
    | Replaced =>
        (Replaced, w2,
         [SetupLogging; BotStart (environ w !! "BOT_TOKEN")] ++ t2)
    | _ =>
        (o, w2,
         [SetupLogging; BotStart (environ w !! "BOT_TOKEN")] ++ t2
         ++ [BotClose])
    end.
Proof.
  intros Hbot. unfold run_bot, try_finally.
  cbv [mbind M_bind bind emit getenv get mret M_ret ret].
  rewrite Hbot. by destruct o.
Qed.

(** X7: a run of [main] in which the server starts and the client returns
    or raises has this order: the server is set up and listening before the
    client is started, the client gets the token of [BOT_TOKEN], and at the
    end the client is closed before the listener is released. *)
Theorem main_order
    (w w1 w2 : World) (runner : Runner) (t1 t2 : list Event)
    (o : Outcome unit) :
  start_web_server w = (Returned runner, w1, t1) ->
  bot_start (environ w !! "BOT_TOKEN") w1 = (o, w2, t2) ->
  o <> Replaced ->
  main w =
    (o, set_listener None w2,
     [RunnerSetup; SiteStart "0.0.0.0" (bound_port runner);
      Log INFO ("Web server started and bound to port "
                +:+ PyStr.of_Z (bound_port runner));
      SetupLogging; BotStart (environ w !! "BOT_TOKEN")]
     ++ t2 ++ [BotClose; RunnerCleanup]).
Proof.
  intros Hweb Hbot Ho.
  destruct (start_web_server_cases w)
    as [(s & Hs & Hint & Hrun)|(port & Hport & Hrun)];
    [by rewrite Hrun in Hweb|].
  destruct (port_free port); rewrite Hrun in Hweb; [|done].
  injection Hweb as <- <- <-.
  unfold main. cbv [mbind M_bind bind]. rewrite Hrun.
  unfold try_finally, cleanup.
  rewrite (run_bot_run (set_listener (Some port) w) o w2 t2 Hbot).
  cbv [mbind M_bind bind emit modify]. cbn [environ set_listener bound_port].
  destruct o as [[]|e|]; [| |done]; cbn [app]; by rewrite <- !app_assoc.
Qed.

End Bot.

(** ** The program on the sample processes *)

Local Abbreviation sample_on_ready setup :=
  (on_ready Sample.configs Sample.check_env Sample.check_configs
     Sample.check_db_clean Sample.init_db Sample.auto_repair setup
     Sample.tree_commands Sample.bot_user).
Local Abbreviation strict_on_ready :=
  (on_ready Sample.configs Sample.check_env Sample.check_configs_strict
     Sample.check_db_clean Sample.init_db Sample.auto_repair Sample.setup_ok
     Sample.tree_commands Sample.bot_user).
Local Abbreviation sample_before_loading :=
  (before_loading Sample.configs Sample.check_env Sample.check_configs
     Sample.check_db_clean Sample.init_db Sample.auto_repair).
Local Abbreviation sample_main :=
  (main Sample.bot_start_fails Sample.py_int Sample.port_free).

(** C1 fails on the code: of three extensions of which the second cannot
    be imported, the third is never asked for, [on_ready] ends with the error
    of the second and the command sync is not reached. *)
Lemma second_extension_failure_stops_loading :
  let r := sample_on_ready Sample.setup_b_fails Sample.cold in
  cogs Sample.cold = ["a.py"; "b.py"; "c.py"]
  /\ outcome r = Raised (ExtensionFailed "cogs.b" "ImportError")
  /\ load_requests (events r) = ["cogs.a"; "cogs.b"]
  /\ extensions (final r) = ["cogs.a"]
  /\ calls TreeSync (events r) = 0%nat.
Proof. cbv zeta. repeat split; vm_compute; reflexivity. Qed.

(** The first start with the extension [b] that cannot be imported. *)
Lemma load_failure_aborts_startup_witness :
  let r0 := sample_before_loading Sample.cold in
  let r1 := for_each ["a.py"] (load_cog Sample.setup_b_fails) (final r0) in
  let r2 := load_cog Sample.setup_b_fails "b.py" (final r1) in
  r0 = (Returned tt, final r0, events r0)
  /\ cogs (final r0) = ["a.py"] ++ "b.py" :: ["c.py"]
  /\ r1 = (Returned tt, final r1, events r1)
  /\ r2 = (Raised (ExtensionFailed "cogs.b" "ImportError"), final r2, events r2)
  /\ sample_on_ready Sample.setup_b_fails Sample.cold =
       (Raised (ExtensionFailed "cogs.b" "ImportError"), final r1,
        events r0 ++ events r1 ++ events r2).
Proof.
  cbv zeta.
  split; [vm_compute; reflexivity|]. split; [vm_compute; reflexivity|].
  split; [vm_compute; reflexivity|]. split; [vm_compute; reflexivity|].
  eapply (load_failure_aborts_startup Sample.configs Sample.check_env
            Sample.check_configs Sample.check_db_clean Sample.init_db
            Sample.auto_repair Sample.setup_b_fails Sample.tree_commands
            Sample.bot_user Sample.cold _ _ _ _ _ _ ["a.py"] ["c.py"] "b.py").
  - vm_compute; reflexivity.
  - vm_compute; reflexivity.
  - vm_compute; reflexivity.
  - vm_compute; reflexivity.
Defined.

(** C2 fails on the code: at a first start without the token in the
    environment the check fails, and the run has one environment check, not
    two; after the [.env] file is read the next check is the one of the
    configuration. *)
Lemma env_check_not_repeated :
  let r := sample_on_ready Sample.setup_ok Sample.cold in
  Sample.check_env (environ Sample.cold) = false
  /\ calls CheckEnv (events r) = 1%nat
  /\ take 7 (events r) =
       [InitDb; CheckUpgrade; CheckEnv; Log WARNING msg_env_retry; Sleep 30;
        LoadDotenv; CheckConfigs].
Proof. cbv zeta. repeat split; vm_compute; reflexivity. Qed.

(** The first start, where the token is missing from the environment. *)
Lemma env_check_failure_reloads_once_witness :
  environ Sample.cold !! "DATA_PATH" = Some "data"
  /\ Sample.check_env (environ Sample.cold) = false
  /\ calls CheckEnv (events (sample_on_ready Sample.setup_ok Sample.cold))
     = 1%nat.
Proof.
  split; [vm_compute; reflexivity|]. split; [vm_compute; reflexivity|].
  eapply (env_check_failure_reloads_once Sample.configs Sample.check_env
            Sample.check_configs Sample.check_db_clean Sample.init_db
            Sample.auto_repair Sample.setup_ok Sample.tree_commands
            Sample.bot_user Sample.cold "data").
  - vm_compute; reflexivity.
  - vm_compute; reflexivity.
Defined.

(** C3 fails on the code: the page served before the bootstrap has run and
    the page served after it has completed are the same, and neither says
    "starting" or "operational". *)
Lemma status_page_ignores_bootstrap :
  let before := Sample.cold in
  let boot := sample_on_ready Sample.setup_ok before in
  outcome boot = Returned tt
  /\ outcome (handle_web Sample.root before)
     = outcome (handle_web Sample.root (final boot))
  /\ page_contains "starting" (handle_web Sample.root before) = false
  /\ page_contains "operational" (handle_web Sample.root (final boot)) = false.
Proof. cbv zeta. repeat split; vm_compute; reflexivity. Qed.

(** The first start under a configuration check that asks for a key the
    configuration does not have. *)
Lemma config_check_failure_restarts_witness :
  environ Sample.cold !! "DATA_PATH" = Some "data"
  /\ Sample.check_configs_strict Sample.configs = false
  /\ outcome (strict_on_ready Sample.cold) = Replaced
  /\ CheckDb ∉ events (strict_on_ready Sample.cold).
Proof.
  split; [vm_compute; reflexivity|]. split; [vm_compute; reflexivity|].
  destruct (config_check_failure_restarts Sample.configs Sample.check_env
              Sample.check_configs_strict Sample.check_db_clean Sample.init_db
              Sample.auto_repair Sample.setup_ok Sample.tree_commands
              Sample.bot_user Sample.cold "data") as [Hrun Hdb].
  - vm_compute; reflexivity.
  - vm_compute; reflexivity.
  - split; [|exact Hdb]. rewrite Hrun. reflexivity.
Defined.

(** A clean store, a mismatch with the repair enabled, and a mismatch with
    the repair disabled. *)
Lemma db_consistency_repair_policy_witness :
  Sample.check_db_clean (environ Sample.warm) (files Sample.warm) = []
  /\ Sample.check_db_mismatch (environ Sample.warm) (files Sample.warm) <> []
  /\ Sample.configs !! "auto_repair_mismatched_clients" = Some (VBool true)
  /\ Sample.configs_no_repair !! "auto_repair_mismatched_clients"
     = Some (VBool false)
  /\ events (stage_db Sample.configs Sample.check_db_clean Sample.auto_repair
               Sample.warm)
     = [CheckDb; Log INFO msg_db_ok]
  /\ events (stage_db Sample.configs Sample.check_db_mismatch
               Sample.auto_repair Sample.warm)
     = [CheckDb; Log WARNING msg_db_mismatch; AutoRepair ["old_client"];
        Log INFO msg_db_repaired]
  /\ stage_db Sample.configs_no_repair Sample.check_db_mismatch
       Sample.auto_repair Sample.warm
     = (Returned tt, Sample.warm,
        [CheckDb; Log WARNING msg_db_mismatch; Log WARNING msg_db_hint]).
Proof.
  split; [vm_compute; reflexivity|]. split; [discriminate|].
  split; [vm_compute; reflexivity|]. split; [vm_compute; reflexivity|].
  split; [|split].
  - destruct (db_consistency_repair_policy Sample.configs
                Sample.check_db_clean Sample.auto_repair Sample.warm)
      as [Hclean _].
    rewrite Hclean; reflexivity.
  - destruct (db_consistency_repair_policy Sample.configs
                Sample.check_db_mismatch Sample.auto_repair Sample.warm)
      as (_ & Hrepair & _).
    rewrite (Hrepair (VBool true)).
    + reflexivity.
    + discriminate.
    + vm_compute; reflexivity.
    + reflexivity.
  - destruct (db_consistency_repair_policy Sample.configs_no_repair
                Sample.check_db_mismatch Sample.auto_repair Sample.warm)
      as (_ & _ & Hwarn).
    apply (Hwarn (VBool false)).
    + discriminate.
    + vm_compute; reflexivity.
    + reflexivity.
Defined.

(** A client whose login is refused: the error leaves [main] after the
    cleanup. *)
Lemma main_releases_listener_witness :
  let r1 := start_web_server Sample.py_int Sample.port_free Sample.warm in
  let r2 := run_bot Sample.bot_start_fails (final r1) in
  r1 = (Returned {| bound_port := 8080 |}, final r1, events r1)
  /\ outcome r2 = Raised (OtherError "LoginFailure")
  /\ listener (final r1) = Some 8080
  /\ outcome (sample_main Sample.warm) = Raised (OtherError "LoginFailure")
  /\ last (events (sample_main Sample.warm)) = Some RunnerCleanup
  /\ listener (final (sample_main Sample.warm)) = None.
Proof.
  cbv zeta.
  split; [vm_compute; reflexivity|]. split; [vm_compute; reflexivity|].
  destruct (main_releases_listener Sample.bot_start_fails Sample.py_int
              Sample.port_free Sample.warm
              (final (start_web_server Sample.py_int Sample.port_free
                        Sample.warm))
              (final (run_bot Sample.bot_start_fails
                        (final (start_web_server Sample.py_int
                                  Sample.port_free Sample.warm))))
              {| bound_port := 8080 |}
              (events (start_web_server Sample.py_int Sample.port_free
                         Sample.warm))
              (events (run_bot Sample.bot_start_fails
                         (final (start_web_server Sample.py_int
                                   Sample.port_free Sample.warm))))
              (Raised (OtherError "LoginFailure")))
    as (Hlisten & Hmain & Hreleased).
  - vm_compute; reflexivity.
  - vm_compute; reflexivity.
  - discriminate.
  - split; [exact Hlisten|]. rewrite Hmain.
    split; [reflexivity|]. split; [vm_compute; reflexivity|].
    reflexivity.
Defined.

(** The first start creates the store; a later start finds it. *)
Lemma store_initialized_iff_absent_witness :
  environ Sample.cold !! "DATA_PATH" = Some "data"
  /\ files Sample.cold !! store_path "data" = None
  /\ InitDb ∈ events (sample_on_ready Sample.setup_ok Sample.cold)
  /\ environ Sample.warm !! "DATA_PATH" = Some "data/"
  /\ is_Some (files Sample.warm !! store_path "data/")
  /\ InitDb ∉ events (sample_on_ready Sample.setup_ok Sample.warm).
Proof.
  split; [vm_compute; reflexivity|]. split; [vm_compute; reflexivity|].
  split.
  { apply (store_initialized_iff_absent Sample.configs Sample.check_env
             Sample.check_configs Sample.check_db_clean Sample.init_db
             Sample.auto_repair Sample.setup_ok Sample.tree_commands
             Sample.bot_user Sample.cold "data").
    - vm_compute; reflexivity.
    - vm_compute; reflexivity. }
  split; [vm_compute; reflexivity|].
  split; [vm_compute; eexists; reflexivity|].
  intros Hin.
  apply (store_initialized_iff_absent Sample.configs Sample.check_env
           Sample.check_configs Sample.check_db_clean Sample.init_db
           Sample.auto_repair Sample.setup_ok Sample.tree_commands
           Sample.bot_user Sample.warm "data/") in Hin.
  - vm_compute in Hin. discriminate.
  - vm_compute; reflexivity.
Defined.

(** C8 fails on the code: for the error of a command that does not exist,
    the handler of prefix commands returns at once; nothing is sent and
    nothing is logged. *)
Lemma command_not_found_is_silent :
  on_command_error Sample.owner_message Sample.unknown_command Sample.warm
  = (Returned tt, Sample.warm, []).
Proof. reflexivity. Qed.

(** A command used by someone who is not the owner. *)
Lemma error_handlers_echo_and_log_witness :
  is_CommandNotFound Sample.not_owner = false
  /\ events (on_command_error Sample.owner_message Sample.not_owner
               Sample.warm)
     = [Send "admin" "You do not own this bot.";
        Log WARNING (msg_command_error +:+ "You do not own this bot.")].
Proof.
  split; [reflexivity|].
  destruct error_handlers_echo_and_log as (_ & Hcmd & _).
  rewrite (Hcmd Sample.owner_message Sample.not_owner Sample.warm).
  - reflexivity.
  - reflexivity.
Defined.

(** A message without a [.db] attachment, and one with two of them. *)
Lemma upload_data_first_db_attachment_witness :
  environ Sample.warm !! "DATA_PATH" = Some "data/"
  /\ upload_data Sample.plain_message Sample.warm
     = (Raised IndexError, Sample.warm, [])
  /\ files (final (upload_data Sample.owner_message Sample.warm))
       !! "data/tracked_accounts.db"
     = Some [x01; x02].
Proof.
  split; [vm_compute; reflexivity|]. split.
  - apply (upload_data_first_db_attachment Sample.plain_message Sample.warm).
    repeat constructor; intros [stem Hstem]; simpl in Hstem;
      apply (f_equal (PyStr.slice_last 3)) in Hstem;
      rewrite (proj2 (db_attachment_spec (stem +:+ ".db"))) in Hstem
        by (by exists stem);
      vm_compute in Hstem; discriminate.
  - destruct (upload_data_first_db_attachment Sample.owner_message Sample.warm)
      as [_ Hfirst].
    rewrite (Hfirst [ {| filename := "notes.txt"; content := [x68; x69] |} ]
               {| filename := "backup.db"; content := [x01; x02] |}
               [ {| filename := "older.db"; content := [x03] |} ]
               "data/").
    + vm_compute; reflexivity.
    + reflexivity.
    + repeat constructor; intros [stem Hstem]; simpl in Hstem;
        apply (f_equal (PyStr.slice_last 3)) in Hstem;
        rewrite (proj2 (db_attachment_spec (stem +:+ ".db"))) in Hstem
          by (by exists stem);
        vm_compute in Hstem; discriminate.
    + by exists "backup".
    + vm_compute; reflexivity.
Defined.

(** A [./cogs] directory with a cache directory, a text file and an entry
    shorter than the suffix among the extensions. *)
Lemma cogs_loaded_from_listing_witness :
  outcome (sample_on_ready Sample.setup_ok Sample.warm) = Returned tt
  /\ load_requests (events (sample_on_ready Sample.setup_ok Sample.warm))
     = cog_names (cogs Sample.warm)
  /\ cog_names (cogs Sample.warm) = ["cogs.notification"; "cogs.sync"].
Proof.
  split; [vm_compute; reflexivity|]. split; [|vm_compute; reflexivity].
  destruct (cogs_loaded_from_listing Sample.configs Sample.check_env
              Sample.check_configs Sample.check_db_clean Sample.init_db
              Sample.auto_repair Sample.setup_ok Sample.tree_commands
              Sample.bot_user Sample.warm) as (_ & Hdone & _).
  apply Hdone. vm_compute; reflexivity.
Defined.

(** ** Further runs on the sample processes *)


(** A second run after the later start. *)
Lemma on_ready_not_twice_witness :
  outcome (sample_on_ready Sample.setup_ok Sample.warm) = Returned tt
  /\ cog_names (cogs Sample.warm) <> []
  /\ exists e,
       outcome (sample_on_ready Sample.setup_ok
                  (final (sample_on_ready Sample.setup_ok Sample.warm)))
       = Raised e.
Proof.
  split; [vm_compute; reflexivity|]. split; [vm_compute; discriminate|].
  apply (on_ready_not_twice Sample.configs Sample.check_env
           Sample.check_configs Sample.check_db_clean Sample.init_db
           Sample.auto_repair Sample.setup_ok Sample.tree_commands
           Sample.bot_user Sample.warm).
  - vm_compute; reflexivity.
  - vm_compute; discriminate.
Defined.


(** An upload at the first start, then the bootstrap. *)
Lemma upload_data_then_on_ready_witness :
  environ Sample.cold !! "DATA_PATH" = Some "data"
  /\ outcome (upload_data Sample.owner_message Sample.cold) = Returned tt
  /\ InitDb ∉ events (sample_on_ready Sample.setup_ok
                        (final (upload_data Sample.owner_message Sample.cold))).
Proof.
  split; [vm_compute; reflexivity|]. split; [vm_compute; reflexivity|].
  destruct (upload_data_then_on_ready Sample.configs Sample.check_env
              Sample.check_configs Sample.check_db_clean Sample.init_db
              Sample.auto_repair Sample.setup_ok Sample.tree_commands
              Sample.bot_user Sample.owner_message Sample.cold "data")
    as [Hinit _].
  - vm_compute; reflexivity.
  - vm_compute; reflexivity.
  - exact Hinit.
Defined.

Lemma load_then_unload_witness :
  outcome (load Sample.setup_ok Sample.owner_message "sync" Sample.warm)
  = Returned tt
  /\ final (unload Sample.plain_message "sync"
              (final (load Sample.setup_ok Sample.owner_message "sync"
                        Sample.warm)))
     = Sample.warm.
Proof.
  split; [vm_compute; reflexivity|].
  rewrite (load_then_unload Sample.setup_ok Sample.owner_message
             Sample.plain_message "sync" Sample.warm).
  - reflexivity.
  - vm_compute; reflexivity.
Defined.

(** The later start with a client that runs until it is closed. *)
Lemma main_order_witness :
  let r1 := start_web_server Sample.py_int Sample.port_free Sample.warm in
  r1 = (Returned {| bound_port := 8080 |}, final r1, events r1)
  /\ events (main Sample.bot_start_returns Sample.py_int Sample.port_free
               Sample.warm)
     = [RunnerSetup; SiteStart "0.0.0.0" 8080;
        Log INFO "Web server started and bound to port 8080";
        SetupLogging; BotStart (Some "token"); Log INFO "client closed";
        BotClose; RunnerCleanup].
Proof.
  cbv zeta. split; [vm_compute; reflexivity|].
  rewrite (main_order Sample.bot_start_returns Sample.py_int Sample.port_free
             Sample.warm
             (final (start_web_server Sample.py_int Sample.port_free
                       Sample.warm))
             (final (start_web_server Sample.py_int Sample.port_free
                       Sample.warm))
             {| bound_port := 8080 |}
             (events (start_web_server Sample.py_int Sample.port_free
                        Sample.warm))
             [Log INFO "client closed"]
             (Returned tt)).
  - vm_compute; reflexivity.
  - vm_compute; reflexivity.
  - vm_compute; reflexivity.
  - discriminate.
Defined.
